(** * Typed read accessors over a Thing: src/thing/get.ts

    A shallow embedding of the accessor module of solid-client-js.  A Thing
    is an ordered collection of RDF/JS quads; every [getXOne]/[getXAll]
    builds a matcher closure, scans the Thing with [findOne]/[findAll] and
    deserialises the lexical value of the objects it found.

    JavaScript reads a property of [undefined] by throwing a TypeError, so
    the code is embedded in a small exception monad: the property reads that
    are only defined on Literals ([.datatype.value], [.language]) can throw,
    and the short-circuit [&&] of the matchers is what keeps them from
    doing so. *)

From Stdlib Require Import String Ascii List Bool ZArith.
Import ListNotations.
Local Open Scope string_scope.
Local Open Scope list_scope.

(** ** Exceptions *)

(** The outcome of running a piece of JavaScript: a value, or a thrown
    TypeError. *)
Inductive Exn (A : Type) : Type :=
| Ok (a : A)
| TypeError.

Arguments Ok {A} a.
Arguments TypeError {A}.

Definition bindE {A B : Type} (c : Exn A) (k : A -> Exn B) : Exn B :=
  match c with
  | Ok a => k a
  | TypeError => TypeError
  end.

Notation "x <- c ;; k" := (bindE c (fun x => k))
  (at level 61, c at next level, right associativity).

(** JavaScript's [a && b] on booleans: [b] is evaluated only when [a]
    evaluated to [true]. *)
Definition andE (a b : Exn bool) : Exn bool :=
  x <- a ;; if x then b else Ok false.

Infix "&&&" := andE (at level 40, left associativity).

(** ** RDF/JS terms and quads (rdf-js) *)

(** The RDF/JS terms.  Every term has a [value]; only a Literal has a
    [language] and a [datatype], the latter a NamedNode of which the IRI is
    kept. *)
Inductive Term : Type :=
| NamedNode (value : string)
| BlankNode (value : string)
| Literal (value language datatype : string)
| VariableTerm (value : string)
| DefaultGraph.

Record Quad : Type := mkQuad {
  subject : Term;
  predicate : Term;
  object : Term;
  graph : Term
}.

(** [term.value] *)
Definition value (t : Term) : string :=
  match t with
  | NamedNode v | BlankNode v | Literal v _ _ | VariableTerm v => v
  | DefaultGraph => EmptyString
  end.

(** [term.datatype.value]: [term.datatype] is [undefined] on everything
    but a Literal, and reading [.value] of it throws. *)
Definition datatype_value (t : Term) : Exn string :=
  match t with
  | Literal _ _ d => Ok d
  | _ => TypeError
  end.

(** [term.language]: a string on a Literal, [undefined] elsewhere. *)
Definition language (t : Term) : option string :=
  match t with
  | Literal _ l _ => Some l
  | _ => None
  end.

(** [NamedNode.equals(other)] of RDF/JS: same term type and same value. *)
Definition equals (self other : Term) : bool :=
  match self, other with
  | NamedNode a, NamedNode b => String.eqb a b
  | BlankNode a, BlankNode b => String.eqb a b
  | Literal v l d, Literal v' l' d' =>
      String.eqb v v' && String.eqb l l' && String.eqb d d'
  | VariableTerm a, VariableTerm b => String.eqb a b
  | DefaultGraph, DefaultGraph => true
  | _, _ => false
  end.

(** A Thing is iterated with [for (const quad of thing)]: the quads in
    iteration order. *)
Definition Thing : Type := list Quad.

(** ** The imports from ../datatypes *)

(** [Iri | IriString]: a predicate is passed as a NamedNode or as the IRI
    itself. *)
Inductive PredicateRef : Type :=
| Iri (node_value : string)
| IriString (iri : string).

(** Modelled from the spec: [asNamedNode] is defined in ../datatypes,
    outside get.ts.  It "accepts a predicate as either a raw string or an
    IRI-reference value; returns a canonical IRI-reference usable for
    equality comparison"; any string is accepted. *)
Definition asNamedNode (p : PredicateRef) : Term :=
  match p with
  | Iri v => NamedNode v
  | IriString s => NamedNode s
  end.

(** Modelled from the spec: [isNamedNode] is defined in ../datatypes,
    outside get.ts; the Node Classifier "is IRI-reference". *)
Definition isNamedNode (t : Term) : bool :=
  match t with
  | NamedNode _ => true
  | _ => false
  end.

(** Modelled from the spec: [isLiteral] is defined in ../datatypes,
    outside get.ts; the Node Classifier "is Literal" (any datatype). *)
Definition isLiteral (t : Term) : bool :=
  match t with
  | Literal _ _ _ => true
  | _ => false
  end.

(** Modelled from the spec: [deserializeBoolean] is defined in
    ../datatypes, outside get.ts.  "canonical lexical forms "true"/"1" ->
    true, "false"/"0" -> false; any other lexical form -> not-found".  The
    accessors take the deserialiser as a parameter; this is the instance
    the closed examples run them with. *)
Definition deserializeBooleanSpec (lexical : string) : option bool :=
  if String.eqb lexical "true" then Some true
  else if String.eqb lexical "1" then Some true
  else if String.eqb lexical "false" then Some false
  else if String.eqb lexical "0" then Some false
  else None.

(** The table [xmlSchemaTypes] of ../datatypes: the datatype IRI of each
    logical type name.  The table is a parameter of the accessors below. *)
Record XmlSchemaTypes : Type := mkXmlSchemaTypes {
  boolean : string;
  dateTime : string;
  decimal : string;
  integer : string;
  string_ : string;
  langString : string
}.

(** ** Array helpers *)

(** [x !== null] *)
Definition isNotNull {A : Type} (x : option A) : bool :=
  match x with
  | Some _ => true
  | None => false
  end.

(** [xs.filter((x) => x !== null)]: the entries that are not [null]. *)
Definition filterNotNull {A : Type} (xs : list (option A)) : list (option A) :=
  filter isNotNull xs.

(** No entry of a filtered array is [null]. *)
Fixpoint filterNotNull_noNull {A : Type} (xs : list (option A))
    : forallb isNotNull (filterNotNull xs) = true :=
  match xs return forallb isNotNull (filterNotNull xs) = true with
  | [] => eq_refl
  | Some _ :: rest => filterNotNull_noNull rest
  | None :: rest => filterNotNull_noNull rest
  end.

(** [xs as T[]]: the type assertion does nothing at run time, the array is
    read entry for entry at type [T].  It drops nothing: an array can only
    be read so when it holds no [null], which [noNull] says of the array at
    hand. *)
Fixpoint asNonNull {A : Type} (xs : list (option A))
    : forallb isNotNull xs = true -> list A :=
  match xs return forallb isNotNull xs = true -> list A with
  | [] => fun _ => []
  | Some a :: rest => fun noNull => a :: asNonNull rest noNull
  | None :: _ => fun noNull => False_rect _ (diff_false_true noNull)
  end.

(** ** Statement-level conditions, in the words of the specification *)

(** The canonical IRI string a predicate reference denotes. *)
Definition iriOf (p : PredicateRef) : string :=
  match p with
  | Iri v => v
  | IriString s => s
  end.

(** "predicate equals target": the statement's predicate is the IRI [p]. *)
Definition hasPredicate (p : string) (q : Quad) : bool :=
  match predicate q with
  | NamedNode p' => String.eqb p' p
  | _ => false
  end.

(** "object is a Literal AND object.datatype equals the supplied datatype
    IRI exactly". *)
Definition isLiteralOfDatatype (d : string) (t : Term) : bool :=
  match t with
  | Literal _ _ d' => String.eqb d' d
  | _ => false
  end.

(** The statements a Literal-of-datatype matcher is meant to accept. *)
Definition matchesTyped (p d : string) (q : Quad) : bool :=
  hasPredicate p q && isLiteralOfDatatype d (object q).

(** The statements an IRI matcher is meant to accept. *)
Definition matchesIri (p : string) (q : Quad) : bool :=
  hasPredicate p q && isNamedNode (object q).

(** The statements an untyped Literal matcher is meant to accept. *)
Definition matchesLiteral (p : string) (q : Quad) : bool :=
  hasPredicate p q && isLiteral (object q).

(** Specification of [getIriAll]: walk the statements in order and keep the
    value of every IRI-reference object found under predicate [p]. *)
Fixpoint iriObjectValues (p : string) (T : Thing) : list string :=
  match T with
  | [] => []
  | q :: rest =>
      match predicate q, object q with
      | NamedNode p', NamedNode v =>
          if String.eqb p' p then v :: iriObjectValues p rest
          else iriObjectValues p rest
      | _, _ => iriObjectValues p rest
      end
  end.

(** Specification of a deserialising [getTAll]: walk the statements in
    order; a literal of datatype [d] under predicate [p] contributes its
    deserialised value, and nothing at all when it does not deserialise. *)
Fixpoint survivingValues {V : Type} (deserialize : string -> option V)
    (p d : string) (T : Thing) : list V :=
  match T with
  | [] => []
  | q :: rest =>
      match predicate q, object q with
      | NamedNode p', Literal lexical _ d' =>
          if String.eqb p' p && String.eqb d' d then
            match deserialize lexical with
            | Some v => v :: survivingValues deserialize p d rest
            | None => survivingValues deserialize p d rest
            end
          else survivingValues deserialize p d rest
      | _, _ => survivingValues deserialize p d rest
      end
  end.


(** ** Instances of the environment, for the closed examples *)

(** The datatype IRIs of XML Schema and RDF. *)
Definition w3cSchemaTypes : XmlSchemaTypes := {|
  boolean := "http://www.w3.org/2001/XMLSchema#boolean";
  dateTime := "http://www.w3.org/2001/XMLSchema#dateTime";
  decimal := "http://www.w3.org/2001/XMLSchema#decimal";
  integer := "http://www.w3.org/2001/XMLSchema#integer";
  string_ := "http://www.w3.org/2001/XMLSchema#string";
  langString := "http://www.w3.org/1999/02/22-rdf-syntax-ns#langString"
|}.

(** Lower-casing of the ASCII letters, the part of [toLowerCase] that
    language tags use. *)
Definition asciiLowerChar (c : ascii) : ascii :=
  let n := nat_of_ascii c in
  if (65 <=? n)%nat && (n <=? 90)%nat then ascii_of_nat (n + 32) else c.

Fixpoint asciiLower (s : string) : string :=
  match s with
  | EmptyString => EmptyString
  | String c rest => String (asciiLowerChar c) (asciiLower rest)
  end.

(** A reader of unsigned decimal numerals, standing for the numeric
    deserialisers in the closed examples. *)
Fixpoint readDigits (acc : Z) (s : string) : option Z :=
  match s with
  | EmptyString => Some acc
  | String c rest =>
      let n := nat_of_ascii c in
      if (48 <=? n)%nat && (n <=? 57)%nat
      then readDigits (10 * acc + Z.of_nat (n - 48)) rest
      else None
  end.

Definition readNumeral (s : string) : option Z :=
  match s with
  | EmptyString => None
  | _ => readDigits 0 s
  end.

(** A datetime reader for the closed examples: any non-empty lexical form
    stands for itself. *)
Definition readInstant (s : string) : option string :=
  match s with
  | EmptyString => None
  | _ => Some s
  end.

(** ** Example data *)

Definition alice : Term := NamedNode "https://example.org/profile#alice".
Definition flagIri : string := "https://example.org/vocab#flag".

(** The language of a literal that is not language-tagged. *)
Definition noLanguage : string := EmptyString.

(** A statement about [alice] under the predicate [flagIri]. *)
Definition statement (o : Term) : Quad :=
  mkQuad alice (NamedNode flagIri) o DefaultGraph.

(** Two boolean literals, the malformed one first. *)
Definition maybeFlag : Quad :=
  statement (Literal "maybe" noLanguage w3cSchemaTypes.(boolean)).
Definition oneFlag : Quad :=
  statement (Literal "1" noLanguage w3cSchemaTypes.(boolean)).
Definition trueFlag : Quad :=
  statement (Literal "true" noLanguage w3cSchemaTypes.(boolean)).
Definition malformedThenValid : Thing := [maybeFlag; oneFlag].

(** A greeting tagged "EN". *)
Definition greeting : Thing :=
  [ statement (Literal "hello" "EN" w3cSchemaTypes.(langString)) ].

(** The numeral "3" typed as a decimal, as an integer and as a plain
    string. *)
Definition threeAsDecimal : Quad :=
  statement (Literal "3" noLanguage w3cSchemaTypes.(decimal)).
Definition threeAsInteger : Quad :=
  statement (Literal "3" noLanguage w3cSchemaTypes.(integer)).
Definition threeAsString : Quad :=
  statement (Literal "3" noLanguage w3cSchemaTypes.(string_)).

(** Three IRI-valued statements, the first and the last with the same
    object, and a decimal literal. *)
Definition friends : Thing :=
  [ statement (NamedNode "https://example.org/profile#bob");
    statement (NamedNode "https://example.org/profile#carol");
    statement (NamedNode "https://example.org/profile#bob") ].

Definition piAsDecimal : Quad :=
  statement (Literal "3.14" noLanguage w3cSchemaTypes.(decimal)).

(** ** The accessors of get.ts *)

Definition Matcher : Type := Quad -> Exn bool.

(** [findOne]: the first quad of the Thing the matcher accepts, or
    [null]. *)
Fixpoint findOne (thing : Thing) (matcher : Matcher) : Exn (option Quad) :=
  match thing with
  | [] => Ok None
  | quad :: rest =>
      b <- matcher quad ;;
      if b then Ok (Some quad) else findOne rest matcher
  end.

(** The loop of [findAll]: [matched] is the array the accepted quads are
    pushed on. *)
Fixpoint findAll_loop (thing : Thing) (matcher : Matcher)
    (matched : list Quad) : Exn (list Quad) :=
  match thing with
  | [] => Ok matched
  | quad :: rest =>
      b <- matcher quad ;;
      findAll_loop rest matcher (if b then matched ++ [quad] else matched)
  end.

Definition findAll (thing : Thing) (matcher : Matcher) : Exn (list Quad) :=
  findAll_loop thing matcher [].

Definition getNamedNodeMatcher (predicate_ : PredicateRef) : Matcher :=
  let predicateNode := asNamedNode predicate_ in
  fun quad =>
    Ok (equals predicateNode (predicate quad))
    &&& Ok (isNamedNode (object quad)).

Definition getLiteralMatcher (predicate_ : PredicateRef) : Matcher :=
  let predicateNode := asNamedNode predicate_ in
  fun quad =>
    Ok (equals predicateNode (predicate quad))
    &&& Ok (isLiteral (object quad)).

Definition getLiteralOfTypeMatcher (predicate_ : PredicateRef)
    (datatype : string) : Matcher :=
  let predicateNode := asNamedNode predicate_ in
  fun quad =>
    Ok (equals predicateNode (predicate quad))
    &&& Ok (isLiteral (object quad))
    &&& (d <- datatype_value (object quad) ;; Ok (String.eqb d datatype)).

(** ** Further example data *)

(** A matcher callback that reads the datatype without asking first
    whether the object is a Literal: it throws on every other object. *)
Definition unguardedDatatypeMatcher (datatype : string) : Matcher :=
  fun quad =>
    d <- datatype_value (object quad) ;; Ok (String.eqb d datatype).

(** A boolean literal followed by an IRI-valued statement. *)
Definition flagThenFriend : Thing :=
  [ oneFlag; statement (NamedNode "https://example.org/profile#bob") ].

(** The same statements as [friends], told of another subject in another
    graph. *)
Definition friendsElsewhere : Thing :=
  map (fun q =>
         mkQuad (BlankNode "b0") (predicate q) (object q)
           (NamedNode "https://example.org/graph"))
      friends.

(** A statement under another predicate than [flagIri]. *)
Definition otherStatement : Quad :=
  mkQuad alice (NamedNode "https://example.org/vocab#other")
    (Literal "1" noLanguage w3cSchemaTypes.(boolean)) DefaultGraph.

Section Accessors.

(** The parts of the environment that are not in the module: the datatype
    table, the deserialisers of ../datatypes with the values they produce
    (each a total function to a value or [null]), and
    [String.prototype.toLowerCase]. *)
Variable xmlSchemaTypes : XmlSchemaTypes.
Variables Date number : Type.
Variable deserializeBoolean : string -> option bool.
Variable deserializeDatetime : string -> option Date.
Variable deserializeDecimal : string -> option number.
Variable deserializeInteger : string -> option number.
Variable toLowerCase : string -> string.

(** [s.toLowerCase()], where [s] may be [undefined]. *)
Definition call_toLowerCase (s : option string) : Exn string :=
  match s with
  | Some s => Ok (toLowerCase s)
  | None => TypeError
  end.

Definition getLocaleStringMatcher (predicate_ : PredicateRef)
    (locale : string) : Matcher :=
  let predicateNode := asNamedNode predicate_ in
  fun quad =>
    Ok (equals predicateNode (predicate quad))
    &&& Ok (isLiteral (object quad))
    &&& (d <- datatype_value (object quad) ;;
         Ok (String.eqb d xmlSchemaTypes.(langString)))
    &&& (l <- call_toLowerCase (language (object quad)) ;;
         Ok (String.eqb l (toLowerCase locale))).

Definition getLiteralOneOfType (thing : Thing) (predicate_ : PredicateRef)
    (literalType : string) : Exn (option string) :=
  let literalOfTypeMatcher := getLiteralOfTypeMatcher predicate_ literalType in
  matchingQuad <- findOne thing literalOfTypeMatcher ;;
  match matchingQuad with
  | None => Ok None
  | Some matchingQuad => Ok (Some (value (object matchingQuad)))
  end.

Definition getLiteralAllOfType (thing : Thing) (predicate_ : PredicateRef)
    (literalType : string) : Exn (list string) :=
  let literalOfTypeMatcher := getLiteralOfTypeMatcher predicate_ literalType in
  matchingQuads <- findAll thing literalOfTypeMatcher ;;
  Ok (map (fun quad => value (object quad)) matchingQuads).

Definition getIriOne (thing : Thing) (predicate_ : PredicateRef)
    : Exn (option string) :=
  let namedNodeMatcher := getNamedNodeMatcher predicate_ in
  matchingQuad <- findOne thing namedNodeMatcher ;;
  match matchingQuad with
  | None => Ok None
  | Some matchingQuad => Ok (Some (value (object matchingQuad)))
  end.

Definition getIriAll (thing : Thing) (predicate_ : PredicateRef)
    : Exn (list string) :=
  let iriMatcher := getNamedNodeMatcher predicate_ in
  matchingQuads <- findAll thing iriMatcher ;;
  Ok (map (fun quad => value (object quad)) matchingQuads).

Definition getBooleanOne (thing : Thing) (predicate_ : PredicateRef)
    : Exn (option bool) :=
  literalString <-
    getLiteralOneOfType thing predicate_ xmlSchemaTypes.(boolean) ;;
  match literalString with
  | None => Ok None
  | Some literalString => Ok (deserializeBoolean literalString)
  end.

Definition getBooleanAll (thing : Thing) (predicate_ : PredicateRef)
    : Exn (list bool) :=
  literalStrings <-
    getLiteralAllOfType thing predicate_ xmlSchemaTypes.(boolean) ;;
  Ok (asNonNull (filterNotNull (map deserializeBoolean literalStrings))
        (filterNotNull_noNull _)).

Definition getDatetimeOne (thing : Thing) (predicate_ : PredicateRef)
    : Exn (option Date) :=
  literalString <-
    getLiteralOneOfType thing predicate_ xmlSchemaTypes.(dateTime) ;;
  match literalString with
  | None => Ok None
  | Some literalString => Ok (deserializeDatetime literalString)
  end.

Definition getDatetimeAll (thing : Thing) (predicate_ : PredicateRef)
    : Exn (list Date) :=
  literalStrings <-
    getLiteralAllOfType thing predicate_ xmlSchemaTypes.(dateTime) ;;
  Ok (asNonNull (filterNotNull (map deserializeDatetime literalStrings))
        (filterNotNull_noNull _)).

Definition getDecimalOne (thing : Thing) (predicate_ : PredicateRef)
    : Exn (option number) :=
  literalString <-
    getLiteralOneOfType thing predicate_ xmlSchemaTypes.(decimal) ;;
  match literalString with
  | None => Ok None
  | Some literalString => Ok (deserializeDecimal literalString)
  end.

Definition getDecimalAll (thing : Thing) (predicate_ : PredicateRef)
    : Exn (list number) :=
  literalStrings <-
    getLiteralAllOfType thing predicate_ xmlSchemaTypes.(decimal) ;;
  Ok (asNonNull (filterNotNull
        (map (fun literalString => deserializeDecimal literalString)
             literalStrings))
        (filterNotNull_noNull _)).

Definition getIntegerOne (thing : Thing) (predicate_ : PredicateRef)
    : Exn (option number) :=
  literalString <-
    getLiteralOneOfType thing predicate_ xmlSchemaTypes.(integer) ;;
  match literalString with
  | None => Ok None
  | Some literalString => Ok (deserializeInteger literalString)
  end.

Definition getIntegerAll (thing : Thing) (predicate_ : PredicateRef)
    : Exn (list number) :=
  literalStrings <-
    getLiteralAllOfType thing predicate_ xmlSchemaTypes.(integer) ;;
  Ok (asNonNull (filterNotNull
        (map (fun literalString => deserializeInteger literalString)
             literalStrings))
        (filterNotNull_noNull _)).

Definition getStringInLocaleOne (thing : Thing) (predicate_ : PredicateRef)
    (locale : string) : Exn (option string) :=
  let localeStringMatcher := getLocaleStringMatcher predicate_ locale in
  matchingQuad <- findOne thing localeStringMatcher ;;
  match matchingQuad with
  | None => Ok None
  | Some matchingQuad => Ok (Some (value (object matchingQuad)))
  end.

Definition getStringInLocaleAll (thing : Thing) (predicate_ : PredicateRef)
    (locale : string) : Exn (list string) :=
  let localeStringMatcher := getLocaleStringMatcher predicate_ locale in
  matchingQuads <- findAll thing localeStringMatcher ;;
  Ok (map (fun quad => value (object quad)) matchingQuads).

Definition getStringUnlocalizedOne (thing : Thing)
    (predicate_ : PredicateRef) : Exn (option string) :=
  literalString <-
    getLiteralOneOfType thing predicate_ xmlSchemaTypes.(string_) ;;
  Ok literalString.

Definition getStringUnlocalizedAll (thing : Thing)
    (predicate_ : PredicateRef) : Exn (list string) :=
  literalStrings <-
    getLiteralAllOfType thing predicate_ xmlSchemaTypes.(string_) ;;
  Ok literalStrings.

Definition getNamedNodeOne (thing : Thing) (predicate_ : PredicateRef)
    : Exn (option Term) :=
  let namedNodeMatcher := getNamedNodeMatcher predicate_ in
  matchingQuad <- findOne thing namedNodeMatcher ;;
  match matchingQuad with
  | None => Ok None
  | Some matchingQuad => Ok (Some (object matchingQuad))
  end.

Definition getNamedNodeAll (thing : Thing) (predicate_ : PredicateRef)
    : Exn (list Term) :=
  let namedNodeMatcher := getNamedNodeMatcher predicate_ in
  matchingQuads <- findAll thing namedNodeMatcher ;;
  Ok (map (fun quad => object quad) matchingQuads).

Definition getLiteralOne (thing : Thing) (predicate_ : PredicateRef)
    : Exn (option Term) :=
  let literalMatcher := getLiteralMatcher predicate_ in
  matchingQuad <- findOne thing literalMatcher ;;
  match matchingQuad with
  | None => Ok None
  | Some matchingQuad => Ok (Some (object matchingQuad))
  end.

Definition getLiteralAll (thing : Thing) (predicate_ : PredicateRef)
    : Exn (list Term) :=
  let literalMatcher := getLiteralMatcher predicate_ in
  matchingQuads <- findAll thing literalMatcher ;;
  Ok (map (fun quad => object quad) matchingQuads).

(** The statements a locale-string matcher is meant to accept. *)
Definition matchesLocale (p locale : string) (q : Quad) : bool :=
  hasPredicate p q &&
  match object q with
  | Literal _ tag d =>
      String.eqb d xmlSchemaTypes.(langString) &&
      String.eqb (toLowerCase tag) (toLowerCase locale)
  | _ => false
  end.

(** The common shape of the four deserialising accessor pairs. *)
Definition typedOne {V : Type} (deserialize : string -> option V)
    (d : string) (thing : Thing) (predicate_ : PredicateRef)
    : Exn (option V) :=
  literalString <- getLiteralOneOfType thing predicate_ d ;;
  match literalString with
  | None => Ok None
  | Some literalString => Ok (deserialize literalString)
  end.

Definition typedAll {V : Type} (deserialize : string -> option V)
    (d : string) (thing : Thing) (predicate_ : PredicateRef)
    : Exn (list V) :=
  literalStrings <- getLiteralAllOfType thing predicate_ d ;;
  Ok (asNonNull (filterNotNull (map deserialize literalStrings))
        (filterNotNull_noNull _)).

(** ** The laws the accessor pairs are checked against *)

(** [getOne] is null exactly when [getAll] is empty. *)
Definition nullIffEmpty {V : Type} (getOne : Exn (option V))
    (getAll : Exn (list V)) : Prop :=
  getOne = Ok None <-> getAll = Ok [].

(** The first statement of [T] that is a literal of datatype [d] under
    predicate [p] has a lexical value that does not deserialise. *)
Definition firstMatchMalformed {V : Type} (deserialize : string -> option V)
    (p d : string) (T : Thing) : Prop :=
  exists T1 q T2,
    T = T1 ++ q :: T2 /\
    (forall q', In q' T1 -> matchesTyped p d q' = false) /\
    matchesTyped p d q = true /\
    deserialize (value (object q)) = None.

(** What holds of a deserialising pair in place of [nullIffEmpty]. *)
Definition nullWhenFirstFails {V : Type}
    (getOne : Thing -> PredicateRef -> Exn (option V))
    (getAll : Thing -> PredicateRef -> Exn (list V))
    (deserialize : string -> option V) (d : string) : Prop :=
  forall T P,
    (getAll T P = Ok [] -> getOne T P = Ok None) /\
    (getOne T P = Ok None <->
     getAll T P = Ok [] \/ firstMatchMalformed deserialize (iriOf P) d T).

(** A single-value accessor is decided by the first statement that matches
    on predicate and datatype, whatever follows it. *)
Definition firstMatchDecides {V : Type}
    (getOne : Thing -> PredicateRef -> Exn (option V))
    (deserialize : string -> option V) (d : string) : Prop :=
  forall T1 q T2 P,
    (forall q', In q' T1 -> matchesTyped (iriOf P) d q' = false) ->
    matchesTyped (iriOf P) d q = true ->
    getOne (T1 ++ q :: T2) P = Ok (deserialize (value (object q))).

(** No fall-through: when the first matching statement does not
    deserialise, [getOne] is null even though a later matching statement
    deserialises to [v], a value that [getAll] does return. *)
Definition noFallThrough {V : Type}
    (getOne : Thing -> PredicateRef -> Exn (option V))
    (getAll : Thing -> PredicateRef -> Exn (list V))
    (deserialize : string -> option V) (d : string) : Prop :=
  forall T1 q T2 q' v P,
    (forall q0, In q0 T1 -> matchesTyped (iriOf P) d q0 = false) ->
    matchesTyped (iriOf P) d q = true ->
    deserialize (value (object q)) = None ->
    In q' T2 ->
    matchesTyped (iriOf P) d q' = true ->
    deserialize (value (object q')) = Some v ->
    getOne (T1 ++ q :: T2) P = Ok None /\
    exists vs, getAll (T1 ++ q :: T2) P = Ok vs /\ In v vs.

(** What a deserialising multi-value accessor does with the lexical values
    that [getLiteralAllOfType] hands it: out of the mapped array the null
    filter takes the entries that did not deserialise, what it leaves is,
    entry for entry and in statement order, the values of
    [survivingValues], and those the accessor returns. *)
Definition dropsMalformed {V : Type}
    (getAll : Thing -> PredicateRef -> Exn (list V))
    (deserialize : string -> option V) (d : string) : Prop :=
  forall T P,
    exists literalStrings,
      getLiteralAllOfType T P d = Ok literalStrings /\
      filterNotNull (map deserialize literalStrings) =
        map Some (survivingValues deserialize (iriOf P) d T) /\
      getAll T P = Ok (survivingValues deserialize (iriOf P) d T).

(** A found [getOne] is the head of [getAll]. *)
Definition oneIsHeadOfAll {V : Type} (getOne : Exn (option V))
    (getAll : Exn (list V)) : Prop :=
  forall v, getOne = Ok (Some v) -> exists rest, getAll = Ok (v :: rest).

(** Statement [q] is invisible to an accessor: taking it out of a Thing,
    wherever it stands, does not change what the accessor returns. *)
Definition invisibleTo {R : Type} (get : Thing -> Exn R) (q : Quad) : Prop :=
  forall T1 T2, get (T1 ++ q :: T2) = get (T1 ++ T2).

(** The values a [getAll] keeps of a list of statements, one by one. *)
Definition keptValue {V : Type} (deserialize : string -> option V)
    (q : Quad) : list V :=
  match deserialize (value (object q)) with
  | Some v => [v]
  | None => []
  end.

(** ** Further laws: the scanner, composition, independence *)

(** What a matcher callback says of a quad, a throw counting as a
    refusal. *)
Definition accepts (m : Matcher) (q : Quad) : bool :=
  match m q with
  | Ok b => b
  | TypeError => false
  end.

(** The matcher callback throws on the quad. *)
Definition throwsOn (m : Matcher) (q : Quad) : bool :=
  match m q with
  | Ok _ => false
  | TypeError => true
  end.

(** The two fields of a quad that get.ts reads. *)
Definition predicateObject (q : Quad) : Term * Term :=
  (predicate q, object q).

(** A multi-value accessor maps the concatenation of two Things to the
    concatenation of its results. *)
Definition appendsOver {V : Type} (getAll : Thing -> Exn (list V)) : Prop :=
  forall T1 T2,
    getAll (T1 ++ T2) =
    (a <- getAll T1 ;; b <- getAll T2 ;; Ok (a ++ b)).

(** A single-value accessor answers from the first Thing of a concatenation
    when it finds a value there, from the second otherwise. *)
Definition firstOfEither {V : Type} (getOne : Thing -> Exn (option V))
    : Prop :=
  forall T1 T2,
    getOne (T1 ++ T2) =
    (r <- getOne T1 ;;
     match r with
     | Some v => Ok (Some v)
     | None => getOne T2
     end).



(** A quad stripped of the fields get.ts does not read. *)
Definition bare (q : Quad) : Quad :=
  mkQuad DefaultGraph (predicate q) (object q) DefaultGraph.

(** Scanning [T] and [T'] with [f] selects the same predicates and
    objects. *)
Definition selectsAlike (f : Quad -> bool) (T T' : Thing) : Prop :=
  map bare (filter f T) = map bare (filter f T') /\
  option_map bare (find f T) = option_map bare (find f T').

(** A literal tagged for the locale, as the locale-string matcher asks. *)
Definition isLiteralInLocale (locale : string) (t : Term) : bool :=
  match t with
  | Literal _ tag d =>
      String.eqb d xmlSchemaTypes.(langString) &&
      String.eqb (toLowerCase tag) (toLowerCase locale)
  | _ => false
  end.

(** A deserialising multi-value accessor returns what its own
    post-processing makes of the literals of datatype [d] that
    [getLiteralAll] returns. *)
Definition readsLiteralsOfType {V : Type}
    (getAll : Thing -> PredicateRef -> Exn (list V))
    (deserialize : string -> option V) (d : string) : Prop :=
  forall T P,
    getAll T P =
    (literals <- getLiteralAll T P ;;
     Ok (asNonNull (filterNotNull
           (map deserialize
              (map value (filter (isLiteralOfDatatype d) literals))))
           (filterNotNull_noNull _))).

(** Reversing the Thing reverses what a multi-value accessor returns. *)
Definition reversesWith {V : Type} (getAll : Thing -> Exn (list V)) : Prop :=
  forall T, getAll (rev T) = (a <- getAll T ;; Ok (rev a)).

(** Every accessor of the module returns the same on [T] and on [T']. *)
Definition sameResults (T T' : Thing) (P : PredicateRef) (l : string)
    : Prop :=
  (getIriOne T P = getIriOne T' P /\ getIriAll T P = getIriAll T' P) /\
  (getBooleanOne T P = getBooleanOne T' P /\
   getBooleanAll T P = getBooleanAll T' P) /\
  (getDatetimeOne T P = getDatetimeOne T' P /\
   getDatetimeAll T P = getDatetimeAll T' P) /\
  (getDecimalOne T P = getDecimalOne T' P /\
   getDecimalAll T P = getDecimalAll T' P) /\
  (getIntegerOne T P = getIntegerOne T' P /\
   getIntegerAll T P = getIntegerAll T' P) /\
  (getStringInLocaleOne T P l = getStringInLocaleOne T' P l /\
   getStringInLocaleAll T P l = getStringInLocaleAll T' P l) /\
  (getStringUnlocalizedOne T P = getStringUnlocalizedOne T' P /\
   getStringUnlocalizedAll T P = getStringUnlocalizedAll T' P) /\
  (getNamedNodeOne T P = getNamedNodeOne T' P /\
   getNamedNodeAll T P = getNamedNodeAll T' P) /\
  (getLiteralOne T P = getLiteralOne T' P /\
   getLiteralAll T P = getLiteralAll T' P).

(** ** The matchers never throw *)

Lemma equals_asNamedNode (P : PredicateRef) (q : Quad) :
  equals (asNamedNode P) (predicate q) = hasPredicate (iriOf P) q.
Proof.
  unfold hasPredicate.
  destruct P as [v | s]; destruct (predicate q); simpl;
    auto using String.eqb_sym.
Qed.

Lemma getNamedNodeMatcher_view (P : PredicateRef) (q : Quad) :
  getNamedNodeMatcher P q = Ok (matchesIri (iriOf P) q).
Proof.
  unfold getNamedNodeMatcher, matchesIri. rewrite equals_asNamedNode.
  destruct (hasPredicate (iriOf P) q); reflexivity.
Qed.

Lemma getLiteralMatcher_view (P : PredicateRef) (q : Quad) :
  getLiteralMatcher P q = Ok (matchesLiteral (iriOf P) q).
Proof.
  unfold getLiteralMatcher, matchesLiteral. rewrite equals_asNamedNode.
  destruct (hasPredicate (iriOf P) q); reflexivity.
Qed.

Lemma getLiteralOfTypeMatcher_view (P : PredicateRef) (d : string) (q : Quad) :
  getLiteralOfTypeMatcher P d q = Ok (matchesTyped (iriOf P) d q).
Proof.
  unfold getLiteralOfTypeMatcher, matchesTyped. rewrite equals_asNamedNode.
  destruct (hasPredicate (iriOf P) q); [| reflexivity].
  destruct (object q); reflexivity.
Qed.

Lemma getLocaleStringMatcher_view (P : PredicateRef) (l : string) (q : Quad) :
  getLocaleStringMatcher P l q = Ok (matchesLocale (iriOf P) l q).
Proof.
  unfold getLocaleStringMatcher, matchesLocale. rewrite equals_asNamedNode.
  destruct (hasPredicate (iriOf P) q); [| reflexivity].
  destruct (object q) as [v | v | v tag d | v |]; try reflexivity.
  simpl. destruct (String.eqb d (langString xmlSchemaTypes)); reflexivity.
Qed.

(** ** The scanner *)

Lemma findOne_view (m : Matcher) (f : Quad -> bool) :
  (forall q, m q = Ok (f q)) ->
  forall T, findOne T m = Ok (find f T).
Proof.
  intros Hm T. induction T as [| q T IH]; simpl; [reflexivity |].
  rewrite Hm. simpl. destruct (f q); [reflexivity | exact IH].
Qed.

Lemma findAll_loop_view (m : Matcher) (f : Quad -> bool) :
  (forall q, m q = Ok (f q)) ->
  forall T matched, findAll_loop T m matched = Ok (matched ++ filter f T).
Proof.
  intros Hm T. induction T as [| q T IH]; intros matched; simpl.
  - now rewrite app_nil_r.
  - rewrite Hm. simpl. rewrite IH.
    destruct (f q); [now rewrite <- app_assoc | reflexivity].
Qed.

Lemma findAll_view (m : Matcher) (f : Quad -> bool) :
  (forall q, m q = Ok (f q)) ->
  forall T, findAll T m = Ok (filter f T).
Proof.
  intros Hm T. unfold findAll. now rewrite (findAll_loop_view m f Hm).
Qed.

Lemma find_skip (f : Quad -> bool) (T1 T2 : Thing) :
  (forall q, In q T1 -> f q = false) ->
  find f (T1 ++ T2) = find f T2.
Proof.
  induction T1 as [| q T1 IH]; intros Hno; simpl; [reflexivity |].
  rewrite (Hno q (or_introl eq_refl)). apply IH.
  intros q' Hin. apply Hno. now right.
Qed.

Lemma find_split (f : Quad -> bool) (T : Thing) (q : Quad) :
  find f T = Some q ->
  exists T1 T2, T = T1 ++ q :: T2 /\ f q = true /\
                (forall q', In q' T1 -> f q' = false).
Proof.
  induction T as [| a T IH]; simpl; [discriminate |].
  destruct (f a) eqn:Ea.
  - intros [= ->]. exists [], T. repeat split; auto. intros q' [].
  - intros Hq. destruct (IH Hq) as (T1 & T2 & -> & Hf & Hno).
    exists (a :: T1), T2. repeat split; auto.
    intros q' [<- | Hin]; auto.
Qed.

Lemma find_none_filter (f : Quad -> bool) (T : Thing) :
  find f T = None <-> filter f T = [].
Proof.
  induction T as [| a T IH]; simpl; [tauto |].
  destruct (f a); [split; discriminate | exact IH].
Qed.

Lemma find_some_filter (f : Quad -> bool) (T : Thing) (q : Quad) :
  find f T = Some q -> exists rest, filter f T = q :: rest.
Proof.
  induction T as [| a T IH]; simpl; [discriminate |].
  destruct (f a); [intros [= ->]; eauto | exact IH].
Qed.

Lemma find_remove (f : Quad -> bool) (T1 T2 : Thing) (q : Quad) :
  f q = false -> find f (T1 ++ q :: T2) = find f (T1 ++ T2).
Proof.
  intros Hq. induction T1 as [| a T1 IH]; simpl.
  - now rewrite Hq.
  - now rewrite IH.
Qed.

Lemma filter_remove (f : Quad -> bool) (T1 T2 : Thing) (q : Quad) :
  f q = false -> filter f (T1 ++ q :: T2) = filter f (T1 ++ T2).
Proof.
  intros Hq. rewrite !filter_app. simpl. now rewrite Hq.
Qed.

(** ** What each accessor computes *)

Lemma asNonNull_reads {V : Type} (ys : list (option V))
    (noNull : forallb isNotNull ys = true) :
  map Some (asNonNull ys noNull) = ys.
Proof.
  induction ys as [| [v |] ys IH]; simpl in *;
    [reflexivity | | discriminate noNull].
  now rewrite IH.
Qed.

Lemma asNonNull_filterNotNull {A V : Type} (f : A -> option V) (xs : list A)
    (noNull : forallb isNotNull (filterNotNull (map f xs)) = true) :
  asNonNull (filterNotNull (map f xs)) noNull =
  flat_map (fun x => match f x with Some v => [v] | None => [] end) xs.
Proof.
  revert noNull. unfold filterNotNull.
  induction xs as [| x xs IH]; simpl; [reflexivity |].
  destruct (f x); simpl; intros noNull; now rewrite IH.
Qed.

Lemma filterNotNull_map {A V : Type} (f : A -> option V) (xs : list A) :
  filterNotNull (map f xs) =
  map Some
    (flat_map (fun x => match f x with Some v => [v] | None => [] end) xs).
Proof.
  unfold filterNotNull.
  induction xs as [| x xs IH]; simpl; [reflexivity |].
  destruct (f x); simpl; now rewrite IH.
Qed.

Lemma getLiteralOneOfType_view (T : Thing) (P : PredicateRef) (d : string) :
  getLiteralOneOfType T P d =
  Ok (option_map (fun q => value (object q))
        (find (matchesTyped (iriOf P) d) T)).
Proof.
  unfold getLiteralOneOfType.
  rewrite (findOne_view _ _ (getLiteralOfTypeMatcher_view P d)). simpl.
  destruct (find _ T); reflexivity.
Qed.

Lemma getLiteralAllOfType_view (T : Thing) (P : PredicateRef) (d : string) :
  getLiteralAllOfType T P d =
  Ok (map (fun q => value (object q)) (filter (matchesTyped (iriOf P) d) T)).
Proof.
  unfold getLiteralAllOfType.
  now rewrite (findAll_view _ _ (getLiteralOfTypeMatcher_view P d)).
Qed.

Lemma typedOne_view {V : Type} (des : string -> option V) (d : string)
    (T : Thing) (P : PredicateRef) :
  typedOne des d T P =
  Ok (match find (matchesTyped (iriOf P) d) T with
      | Some q => des (value (object q))
      | None => None
      end).
Proof.
  unfold typedOne. rewrite getLiteralOneOfType_view. simpl.
  destruct (find _ T); reflexivity.
Qed.

Lemma typedAll_view {V : Type} (des : string -> option V) (d : string)
    (T : Thing) (P : PredicateRef) :
  typedAll des d T P =
  Ok (flat_map (keptValue des) (filter (matchesTyped (iriOf P) d) T)).
Proof.
  unfold typedAll. rewrite getLiteralAllOfType_view. simpl.
  rewrite asNonNull_filterNotNull. f_equal.
  induction (filter _ T) as [| q qs IH]; simpl; [reflexivity |].
  now rewrite IH.
Qed.

Lemma getIriOne_view (T : Thing) (P : PredicateRef) :
  getIriOne T P =
  Ok (option_map (fun q => value (object q)) (find (matchesIri (iriOf P)) T)).
Proof.
  unfold getIriOne.
  rewrite (findOne_view _ _ (getNamedNodeMatcher_view P)). simpl.
  destruct (find _ T); reflexivity.
Qed.

Lemma getIriAll_view (T : Thing) (P : PredicateRef) :
  getIriAll T P =
  Ok (map (fun q => value (object q)) (filter (matchesIri (iriOf P)) T)).
Proof.
  unfold getIriAll.
  now rewrite (findAll_view _ _ (getNamedNodeMatcher_view P)).
Qed.

Lemma getStringInLocaleOne_view (T : Thing) (P : PredicateRef) (l : string) :
  getStringInLocaleOne T P l =
  Ok (option_map (fun q => value (object q))
        (find (matchesLocale (iriOf P) l) T)).
Proof.
  unfold getStringInLocaleOne.
  rewrite (findOne_view _ _ (getLocaleStringMatcher_view P l)). simpl.
  destruct (find _ T); reflexivity.
Qed.

Lemma getStringInLocaleAll_view (T : Thing) (P : PredicateRef) (l : string) :
  getStringInLocaleAll T P l =
  Ok (map (fun q => value (object q))
        (filter (matchesLocale (iriOf P) l) T)).
Proof.
  unfold getStringInLocaleAll.
  now rewrite (findAll_view _ _ (getLocaleStringMatcher_view P l)).
Qed.

Lemma getStringUnlocalizedOne_view (T : Thing) (P : PredicateRef) :
  getStringUnlocalizedOne T P =
  Ok (option_map (fun q => value (object q))
        (find (matchesTyped (iriOf P) xmlSchemaTypes.(string_)) T)).
Proof.
  unfold getStringUnlocalizedOne. now rewrite getLiteralOneOfType_view.
Qed.

Lemma getStringUnlocalizedAll_view (T : Thing) (P : PredicateRef) :
  getStringUnlocalizedAll T P =
  Ok (map (fun q => value (object q))
        (filter (matchesTyped (iriOf P) xmlSchemaTypes.(string_)) T)).
Proof.
  unfold getStringUnlocalizedAll. now rewrite getLiteralAllOfType_view.
Qed.

Lemma getNamedNodeOne_view (T : Thing) (P : PredicateRef) :
  getNamedNodeOne T P = Ok (option_map object (find (matchesIri (iriOf P)) T)).
Proof.
  unfold getNamedNodeOne.
  rewrite (findOne_view _ _ (getNamedNodeMatcher_view P)). simpl.
  destruct (find _ T); reflexivity.
Qed.

Lemma getNamedNodeAll_view (T : Thing) (P : PredicateRef) :
  getNamedNodeAll T P = Ok (map object (filter (matchesIri (iriOf P)) T)).
Proof.
  unfold getNamedNodeAll.
  now rewrite (findAll_view _ _ (getNamedNodeMatcher_view P)).
Qed.

Lemma getLiteralOne_view (T : Thing) (P : PredicateRef) :
  getLiteralOne T P =
  Ok (option_map object (find (matchesLiteral (iriOf P)) T)).
Proof.
  unfold getLiteralOne.
  rewrite (findOne_view _ _ (getLiteralMatcher_view P)). simpl.
  destruct (find _ T); reflexivity.
Qed.

Lemma getLiteralAll_view (T : Thing) (P : PredicateRef) :
  getLiteralAll T P = Ok (map object (filter (matchesLiteral (iriOf P)) T)).
Proof.
  unfold getLiteralAll.
  now rewrite (findAll_view _ _ (getLiteralMatcher_view P)).
Qed.

(** The four deserialising pairs are instances of the common shape. *)
Lemma getBoolean_shape :
  getBooleanOne = typedOne deserializeBoolean xmlSchemaTypes.(boolean) /\
  getBooleanAll = typedAll deserializeBoolean xmlSchemaTypes.(boolean).
Proof. split; reflexivity. Qed.


Lemma getDecimal_shape :
  getDecimalOne = typedOne deserializeDecimal xmlSchemaTypes.(decimal) /\
  getDecimalAll = typedAll deserializeDecimal xmlSchemaTypes.(decimal).
Proof. split; reflexivity. Qed.

Lemma getInteger_shape :
  getIntegerOne = typedOne deserializeInteger xmlSchemaTypes.(integer) /\
  getIntegerAll = typedAll deserializeInteger xmlSchemaTypes.(integer).
Proof. split; reflexivity. Qed.

(** ** Laws of the common shapes *)

Lemma find_first (f : Quad -> bool) (T1 T2 : Thing) (q : Quad) :
  (forall q', In q' T1 -> f q' = false) -> f q = true ->
  find f (T1 ++ q :: T2) = Some q.
Proof.
  intros Hno Hq. rewrite (find_skip f T1 (q :: T2) Hno). simpl.
  now rewrite Hq.
Qed.

Lemma keptValue_nil {V : Type} (des : string -> option V) (q : Quad) :
  keptValue des q = [] <-> des (value (object q)) = None.
Proof.
  unfold keptValue. destruct (des _); split; intros H; try discriminate; auto.
Qed.

Lemma typed_firstMatchDecides {V : Type} (des : string -> option V)
    (d : string) :
  firstMatchDecides (typedOne des d) des d.
Proof.
  intros T1 q T2 P Hno Hq. rewrite typedOne_view.
  now rewrite (find_first _ T1 T2 q Hno Hq).
Qed.

Lemma typed_noFallThrough {V : Type} (des : string -> option V)
    (d : string) :
  noFallThrough (typedOne des d) (typedAll des d) des d.
Proof.
  intros T1 q T2 q' v P Hno Hq Hdes Hin Hq' Hdes'. split.
  - rewrite (typed_firstMatchDecides des d T1 q T2 P Hno Hq).
    now rewrite Hdes.
  - rewrite typedAll_view. eexists. split; [reflexivity |].
    apply in_flat_map. exists q'. split.
    + apply filter_In. split; [| exact Hq'].
      apply in_or_app. right. now right.
    + unfold keptValue. rewrite Hdes'. now left.
Qed.

Lemma typed_empty_null {V : Type} (des : string -> option V) (d : string)
    (T : Thing) (P : PredicateRef) :
  typedAll des d T P = Ok [] -> typedOne des d T P = Ok None.
Proof.
  rewrite typedAll_view, typedOne_view. intros [= Hall]. f_equal.
  destruct (find _ T) as [q |] eqn:Ef; [| reflexivity].
  destruct (find_some_filter _ _ _ Ef) as [rest Hrest].
  rewrite Hrest in Hall. simpl in Hall.
  apply app_eq_nil in Hall. now apply keptValue_nil.
Qed.

Lemma typed_nullWhenFirstFails {V : Type} (des : string -> option V)
    (d : string) :
  nullWhenFirstFails (typedOne des d) (typedAll des d) des d.
Proof.
  intros T P. split; [apply typed_empty_null |]. split.
  - rewrite typedOne_view, typedAll_view. intros [= Hone].
    destruct (find _ T) as [q |] eqn:Ef.
    + right. destruct (find_split _ _ _ Ef) as (T1 & T2 & HT & Hq & Hno).
      now exists T1, q, T2.
    + left. apply find_none_filter in Ef. now rewrite Ef.
  - intros [Hall | (T1 & q & T2 & -> & Hno & Hq & Hdes)].
    + now apply typed_empty_null.
    + rewrite (typed_firstMatchDecides des d T1 q T2 P Hno Hq).
      now rewrite Hdes.
Qed.

Lemma typed_oneIsHeadOfAll {V : Type} (des : string -> option V)
    (d : string) (T : Thing) (P : PredicateRef) :
  oneIsHeadOfAll (typedOne des d T P) (typedAll des d T P).
Proof.
  intros v. rewrite typedOne_view, typedAll_view. intros [= Hone].
  destruct (find _ T) as [q |] eqn:Ef; [| discriminate].
  destruct (find_some_filter _ _ _ Ef) as [rest ->]. simpl.
  unfold keptValue at 1. rewrite Hone. simpl. eauto.
Qed.

Lemma typed_invisible {V : Type} (des : string -> option V) (d : string)
    (P : PredicateRef) (q : Quad) :
  matchesTyped (iriOf P) d q = false ->
  invisibleTo (fun T => typedOne des d T P) q /\
  invisibleTo (fun T => typedAll des d T P) q.
Proof.
  intros Hq. split; intros T1 T2.
  - rewrite !typedOne_view. now rewrite (find_remove _ T1 T2 q Hq).
  - rewrite !typedAll_view. now rewrite (filter_remove _ T1 T2 q Hq).
Qed.

Lemma typedAll_survivingValues {V : Type} (des : string -> option V)
    (d : string) (T : Thing) (P : PredicateRef) :
  typedAll des d T P = Ok (survivingValues des (iriOf P) d T).
Proof.
  rewrite typedAll_view. f_equal.
  induction T as [| q T IH]; simpl; [reflexivity |].
  unfold matchesTyped at 1, hasPredicate, isLiteralOfDatatype.
  destruct (predicate q) as [p' | | | |],
    (object q) as [v | v | v l d' | v |] eqn:Eo;
    simpl; rewrite ?andb_false_r; try exact IH.
  destruct (String.eqb p' (iriOf P) && String.eqb d' d); [| exact IH].
  simpl. unfold keptValue at 1. rewrite Eo. simpl.
  destruct (des v); simpl; now rewrite IH.
Qed.

Lemma typed_dropsMalformed {V : Type} (des : string -> option V)
    (d : string) :
  dropsMalformed (typedAll des d) des d.
Proof.
  intros T P. rewrite getLiteralAllOfType_view. eexists.
  split; [reflexivity |]. split; [| apply typedAll_survivingValues].
  assert (Hkept : flat_map (keptValue des)
                    (filter (matchesTyped (iriOf P) d) T)
                  = survivingValues des (iriOf P) d T).
  { pose proof (typedAll_survivingValues des d T P) as Hall.
    rewrite typedAll_view in Hall. now injection Hall. }
  rewrite filterNotNull_map, <- Hkept. clear Hkept. f_equal.
  induction (filter _ T) as [| q qs IH]; simpl; [reflexivity |].
  now rewrite IH.
Qed.

(** The pairs without a deserialisation step. *)
Lemma plain_nullIffEmpty {V : Type} (f : Quad -> bool) (proj : Quad -> V)
    (T : Thing) :
  nullIffEmpty (Ok (option_map proj (find f T))) (Ok (map proj (filter f T))).
Proof.
  unfold nullIffEmpty. split; intros [= H]; f_equal.
  - destruct (find f T) eqn:Ef; [discriminate |].
    apply find_none_filter in Ef. now rewrite Ef.
  - apply map_eq_nil in H. apply find_none_filter in H. now rewrite H.
Qed.

Lemma plain_oneIsHeadOfAll {V : Type} (f : Quad -> bool) (proj : Quad -> V)
    (T : Thing) :
  oneIsHeadOfAll (Ok (option_map proj (find f T)))
                 (Ok (map proj (filter f T))).
Proof.
  intros v [= Hone].
  destruct (find f T) as [q |] eqn:Ef; [| discriminate].
  destruct (find_some_filter _ _ _ Ef) as [rest ->].
  simpl in *. injection Hone as <-. eauto.
Qed.

Lemma hasPredicate_asNamedNode (P : PredicateRef) (s o g : Term) :
  hasPredicate (iriOf P) (mkQuad s (asNamedNode P) o g) = true.
Proof.
  unfold hasPredicate. destruct P; simpl; apply String.eqb_refl.
Qed.

Lemma matchesTyped_other_datatype (p d d' : string) (s pr g : Term)
    (lexical tag : string) :
  d' <> d ->
  matchesTyped p d (mkQuad s pr (Literal lexical tag d') g) = false.
Proof.
  intros Hne. unfold matchesTyped. simpl.
  apply String.eqb_neq in Hne. rewrite Hne. apply andb_false_r.
Qed.

(** ** The claims *)

(** C1 (amended).  For the IRI pair and the two string pairs, [getXOne] is
    null if and only if [getXAll] is empty.  For the boolean, datetime,
    decimal and integer pairs an empty [getXAll] implies a null [getXOne],
    and [getXOne] is null if and only if [getXAll] is empty or the first
    statement matching on predicate and datatype has a lexical value that
    does not deserialise. *)
Theorem getOne_null_versus_getAll_empty :
  (forall T P, nullIffEmpty (getIriOne T P) (getIriAll T P)) /\
  (forall T P,
     nullIffEmpty (getStringUnlocalizedOne T P)
                  (getStringUnlocalizedAll T P)) /\
  (forall T P l,
     nullIffEmpty (getStringInLocaleOne T P l) (getStringInLocaleAll T P l)) /\
  nullWhenFirstFails getBooleanOne getBooleanAll
    deserializeBoolean xmlSchemaTypes.(boolean) /\
  nullWhenFirstFails getDatetimeOne getDatetimeAll
    deserializeDatetime xmlSchemaTypes.(dateTime) /\
  nullWhenFirstFails getDecimalOne getDecimalAll
    deserializeDecimal xmlSchemaTypes.(decimal) /\
  nullWhenFirstFails getIntegerOne getIntegerAll
    deserializeInteger xmlSchemaTypes.(integer).
Proof.
  split.
  { intros T P. rewrite getIriOne_view, getIriAll_view.
    apply plain_nullIffEmpty. }
  split.
  { intros T P.
    rewrite getStringUnlocalizedOne_view, getStringUnlocalizedAll_view.
    apply plain_nullIffEmpty. }
  split.
  { intros T P l.
    rewrite getStringInLocaleOne_view, getStringInLocaleAll_view.
    apply plain_nullIffEmpty. }
  repeat apply conj; apply typed_nullWhenFirstFails.
Qed.

(** C2.  Every datatype-qualified [getXOne] is decided by the first
    statement that matches on predicate and datatype: it returns what that
    statement's lexical value deserialises to, whatever statements follow,
    hence null when it does not deserialise.  There is no fall-through:
    [getXOne] is then null even though a later statement of the same
    datatype under the same predicate is lexically valid. *)
Theorem getOne_inspects_first_match_only :
  (firstMatchDecides getBooleanOne deserializeBoolean
     xmlSchemaTypes.(boolean) /\
   noFallThrough getBooleanOne getBooleanAll deserializeBoolean
     xmlSchemaTypes.(boolean)) /\
  (firstMatchDecides getDatetimeOne deserializeDatetime
     xmlSchemaTypes.(dateTime) /\
   noFallThrough getDatetimeOne getDatetimeAll deserializeDatetime
     xmlSchemaTypes.(dateTime)) /\
  (firstMatchDecides getDecimalOne deserializeDecimal
     xmlSchemaTypes.(decimal) /\
   noFallThrough getDecimalOne getDecimalAll deserializeDecimal
     xmlSchemaTypes.(decimal)) /\
  (firstMatchDecides getIntegerOne deserializeInteger
     xmlSchemaTypes.(integer) /\
   noFallThrough getIntegerOne getIntegerAll deserializeInteger
     xmlSchemaTypes.(integer)) /\
  firstMatchDecides getStringUnlocalizedOne Some xmlSchemaTypes.(string_).
Proof.
  repeat apply conj;
    try apply typed_firstMatchDecides; try apply typed_noFallThrough.
  intros T1 q T2 P Hno Hq. rewrite getStringUnlocalizedOne_view.
  now rewrite (find_first _ T1 T2 q Hno Hq).
Qed.

(** C3.  [getIriAll] returns, in statement order and without
    deduplication, the value of the object of exactly those statements
    whose predicate is the canonical IRI of [P] and whose object is an
    IRI-reference. *)
Theorem getIriAll_in_statement_order (T : Thing) (P : PredicateRef) :
  getIriAll T P = Ok (iriObjectValues (iriOf P) T).
Proof.
  rewrite getIriAll_view. f_equal.
  induction T as [| q T IH]; simpl; [reflexivity |].
  unfold matchesIri at 1, hasPredicate.
  destruct (predicate q) as [p' | | | |],
    (object q) as [v | v | v l d | v |] eqn:Eo;
    simpl; rewrite ?andb_false_r; try exact IH.
  destruct (String.eqb p' (iriOf P)); [| exact IH].
  simpl. rewrite Eo. simpl. now rewrite IH.
Qed.

(** C4.  Every deserialising [getTAll] drops the entries that do not
    deserialise, one by one, and nothing else: the null filter leaves of
    the mapped array exactly the deserialised values of the matching
    literals, in statement order, and these are what the call returns; it
    does not fail and puts nothing in the place of a dropped entry.  With a
    boolean deserialiser that reads "true" as [true] and rejects "maybe", a
    Thing with the boolean literals "true" and "maybe" under [P], in either
    order, gives [[true]]. *)
Theorem getAll_drops_malformed_entries :
  dropsMalformed getBooleanAll deserializeBoolean xmlSchemaTypes.(boolean) /\
  dropsMalformed getDatetimeAll deserializeDatetime
    xmlSchemaTypes.(dateTime) /\
  dropsMalformed getDecimalAll deserializeDecimal xmlSchemaTypes.(decimal) /\
  dropsMalformed getIntegerAll deserializeInteger xmlSchemaTypes.(integer) /\
  (forall (P : PredicateRef) (s g s' g' : Term) (tag tag' : string),
     let valid :=
       mkQuad s (asNamedNode P)
         (Literal "true" tag xmlSchemaTypes.(boolean)) g in
     let malformed :=
       mkQuad s' (asNamedNode P)
         (Literal "maybe" tag' xmlSchemaTypes.(boolean)) g' in
     deserializeBoolean "true" = Some true ->
     deserializeBoolean "maybe" = None ->
     getBooleanAll [valid; malformed] P = Ok [true] /\
     getBooleanAll [malformed; valid] P = Ok [true]).
Proof.
  repeat apply conj; try apply typed_dropsMalformed.
  intros P s g s' g' tag tag' valid malformed Htrue Hmaybe.
  destruct getBoolean_shape as [_ ->]. rewrite !typedAll_survivingValues.
  unfold valid, malformed. destruct P; simpl;
    rewrite !String.eqb_refl; simpl; rewrite Htrue, Hmaybe; auto.
Qed.

(** C5.  Whenever [getXOne] returns a value, that value is the first
    element of [getXAll]. *)
Theorem getOne_is_head_of_getAll :
  (forall T P, oneIsHeadOfAll (getBooleanOne T P) (getBooleanAll T P)) /\
  (forall T P, oneIsHeadOfAll (getDatetimeOne T P) (getDatetimeAll T P)) /\
  (forall T P, oneIsHeadOfAll (getDecimalOne T P) (getDecimalAll T P)) /\
  (forall T P, oneIsHeadOfAll (getIntegerOne T P) (getIntegerAll T P)) /\
  (forall T P,
     oneIsHeadOfAll (getStringUnlocalizedOne T P)
                    (getStringUnlocalizedAll T P)) /\
  (forall T P l,
     oneIsHeadOfAll (getStringInLocaleOne T P l)
                    (getStringInLocaleAll T P l)) /\
  (forall T P, oneIsHeadOfAll (getIriOne T P) (getIriAll T P)).
Proof.
  repeat apply conj; try (intros T P; apply typed_oneIsHeadOfAll).
  - intros T P.
    rewrite getStringUnlocalizedOne_view, getStringUnlocalizedAll_view.
    apply plain_oneIsHeadOfAll.
  - intros T P l.
    rewrite getStringInLocaleOne_view, getStringInLocaleAll_view.
    apply plain_oneIsHeadOfAll.
  - intros T P. rewrite getIriOne_view, getIriAll_view.
    apply plain_oneIsHeadOfAll.
Qed.

(** C6.  Locale matching is case-insensitive and nothing more: two locales
    with the same lower-casing give the same [getStringInLocaleOne] and
    the same [getStringInLocaleAll], and a language-tagged literal under
    [P] is accepted for a locale exactly when its tag and the locale have
    the same lower-casing. *)
Theorem locale_matching_case_insensitive (l1 l2 : string) :
  toLowerCase l1 = toLowerCase l2 ->
  (forall T P,
     getStringInLocaleOne T P l1 = getStringInLocaleOne T P l2 /\
     getStringInLocaleAll T P l1 = getStringInLocaleAll T P l2) /\
  (forall (P : PredicateRef) (s g : Term) (lexical tag : string),
     let tagged :=
       mkQuad s (asNamedNode P)
         (Literal lexical tag xmlSchemaTypes.(langString)) g in
     getLocaleStringMatcher P l1 tagged = getLocaleStringMatcher P l2 tagged /\
     (getLocaleStringMatcher P l1 tagged = Ok true <->
      toLowerCase tag = toLowerCase l1) /\
     (getLocaleStringMatcher P l1 tagged = Ok false <->
      toLowerCase tag <> toLowerCase l1)).
Proof.
  intros Hcase. split.
  - intros T P.
    unfold getStringInLocaleOne, getStringInLocaleAll, getLocaleStringMatcher.
    now rewrite Hcase.
  - intros P s g lexical tag tagged. split.
    + unfold getLocaleStringMatcher. now rewrite Hcase.
    + rewrite getLocaleStringMatcher_view. unfold matchesLocale, tagged.
      rewrite hasPredicate_asNamedNode. simpl. rewrite String.eqb_refl. simpl.
      destruct (String.eqb_spec (toLowerCase tag) (toLowerCase l1)) as [E | E];
        split; split; intros H; try reflexivity; try assumption;
        try discriminate; try (injection H; discriminate);
        contradiction.
Qed.

(** C7.  Datatype matching is string equality on the datatype IRI: a
    literal under [P] is accepted by the matcher for datatype [d] exactly
    when its datatype IRI is [d].  With distinct IRIs for integer and
    decimal, a decimal literal is invisible to [getIntegerOne] and
    [getIntegerAll] and an integer literal is invisible to [getDecimalOne]
    and [getDecimalAll], whatever its lexical value ("3" included). *)
Theorem exact_datatype_discrimination :
  xmlSchemaTypes.(integer) <> xmlSchemaTypes.(decimal) ->
  (forall (P : PredicateRef) (s g : Term) (lexical tag d d' : string),
     getLiteralOfTypeMatcher P d
       (mkQuad s (asNamedNode P) (Literal lexical tag d') g) =
     Ok (String.eqb d' d)) /\
  (forall (P : PredicateRef) (s p g : Term) (lexical tag : string),
     let asDecimal :=
       mkQuad s p (Literal lexical tag xmlSchemaTypes.(decimal)) g in
     let asInteger :=
       mkQuad s p (Literal lexical tag xmlSchemaTypes.(integer)) g in
     (getLiteralOfTypeMatcher P xmlSchemaTypes.(integer) asDecimal = Ok false /\
      invisibleTo (fun T => getIntegerOne T P) asDecimal /\
      invisibleTo (fun T => getIntegerAll T P) asDecimal) /\
     (getLiteralOfTypeMatcher P xmlSchemaTypes.(decimal) asInteger = Ok false /\
      invisibleTo (fun T => getDecimalOne T P) asInteger /\
      invisibleTo (fun T => getDecimalAll T P) asInteger)).
Proof.
  intros Hne. split.
  - intros P s g lexical tag d d'. rewrite getLiteralOfTypeMatcher_view.
    unfold matchesTyped. now rewrite hasPredicate_asNamedNode.
  - intros P s p g lexical tag asDecimal asInteger.
    assert (Hd : matchesTyped (iriOf P) xmlSchemaTypes.(integer) asDecimal
                 = false)
      by (apply matchesTyped_other_datatype; congruence).
    assert (Hi : matchesTyped (iriOf P) xmlSchemaTypes.(decimal) asInteger
                 = false)
      by (apply matchesTyped_other_datatype; congruence).
    split; (split; [rewrite getLiteralOfTypeMatcher_view; congruence |]).
    + destruct getInteger_shape as [-> ->]. now apply typed_invisible.
    + destruct getDecimal_shape as [-> ->]. now apply typed_invisible.
Qed.

(** C8.  A predicate given as the IRI string [s] and one given as the
    IRI-node of value [s] are interchangeable in every accessor.
    Canonicalisation is idempotent, and the canonical node equals a term
    exactly when that term is the IRI-node of the same IRI string. *)
Theorem predicate_string_and_node_interchangeable (s : string) :
  (forall p, asNamedNode (Iri (value (asNamedNode p))) = asNamedNode p) /\
  (forall p t, equals (asNamedNode p) t = true <-> t = NamedNode (iriOf p)) /\
  (forall T,
     getIriOne T (IriString s) = getIriOne T (Iri s) /\
     getIriAll T (IriString s) = getIriAll T (Iri s) /\
     getBooleanOne T (IriString s) = getBooleanOne T (Iri s) /\
     getBooleanAll T (IriString s) = getBooleanAll T (Iri s) /\
     getDatetimeOne T (IriString s) = getDatetimeOne T (Iri s) /\
     getDatetimeAll T (IriString s) = getDatetimeAll T (Iri s) /\
     getDecimalOne T (IriString s) = getDecimalOne T (Iri s) /\
     getDecimalAll T (IriString s) = getDecimalAll T (Iri s) /\
     getIntegerOne T (IriString s) = getIntegerOne T (Iri s) /\
     getIntegerAll T (IriString s) = getIntegerAll T (Iri s) /\
     getStringUnlocalizedOne T (IriString s) =
       getStringUnlocalizedOne T (Iri s) /\
     getStringUnlocalizedAll T (IriString s) =
       getStringUnlocalizedAll T (Iri s) /\
     getNamedNodeOne T (IriString s) = getNamedNodeOne T (Iri s) /\
     getNamedNodeAll T (IriString s) = getNamedNodeAll T (Iri s) /\
     getLiteralOne T (IriString s) = getLiteralOne T (Iri s) /\
     getLiteralAll T (IriString s) = getLiteralAll T (Iri s)) /\
  (forall T l,
     getStringInLocaleOne T (IriString s) l =
       getStringInLocaleOne T (Iri s) l /\
     getStringInLocaleAll T (IriString s) l =
       getStringInLocaleAll T (Iri s) l).
Proof.
  split; [| split; [| split]].
  - intros [v | v]; reflexivity.
  - intros p t. split.
    + destruct p as [v | v], t as [a | a | a l d | a |]; simpl;
        try discriminate; intros H; apply String.eqb_eq in H; now subst.
    + intros ->. destruct p; simpl; apply String.eqb_refl.
  - intros T. repeat apply conj; reflexivity.
  - intros T l. split; reflexivity.
Qed.


(** C10.  With distinct IRIs for the plain and the language-tagged string
    datatype, a language-tagged literal is invisible to
    [getStringUnlocalizedOne] and [getStringUnlocalizedAll], a plain string
    literal is invisible to [getStringInLocaleOne] and
    [getStringInLocaleAll] for every locale, and no statement is accepted
    by the matchers of both families. *)
Theorem string_families_disjoint :
  xmlSchemaTypes.(string_) <> xmlSchemaTypes.(langString) ->
  (forall (P : PredicateRef) (l : string) (s p g : Term)
          (lexical tag : string),
     let tagged :=
       mkQuad s p (Literal lexical tag xmlSchemaTypes.(langString)) g in
     let plain :=
       mkQuad s p (Literal lexical tag xmlSchemaTypes.(string_)) g in
     (invisibleTo (fun T => getStringUnlocalizedOne T P) tagged /\
      invisibleTo (fun T => getStringUnlocalizedAll T P) tagged) /\
     (invisibleTo (fun T => getStringInLocaleOne T P l) plain /\
      invisibleTo (fun T => getStringInLocaleAll T P l) plain)) /\
  (forall (P P' : PredicateRef) (l : string) (q : Quad),
     ~ (getLiteralOfTypeMatcher P xmlSchemaTypes.(string_) q = Ok true /\
        getLocaleStringMatcher P' l q = Ok true)).
Proof.
  intros Hne. split.
  - intros P l s p g lexical tag tagged plain. split.
    + assert (Ht : matchesTyped (iriOf P) xmlSchemaTypes.(string_) tagged
                   = false)
        by (apply matchesTyped_other_datatype; congruence).
      split; intros T1 T2.
      * rewrite !getStringUnlocalizedOne_view.
        now rewrite (find_remove _ T1 T2 tagged Ht).
      * rewrite !getStringUnlocalizedAll_view.
        now rewrite (filter_remove _ T1 T2 tagged Ht).
    + assert (Hp : matchesLocale (iriOf P) l plain = false).
      { unfold matchesLocale, plain. simpl.
        apply String.eqb_neq in Hne. rewrite Hne. apply andb_false_r. }
      split; intros T1 T2.
      * rewrite !getStringInLocaleOne_view.
        now rewrite (find_remove _ T1 T2 plain Hp).
      * rewrite !getStringInLocaleAll_view.
        now rewrite (filter_remove _ T1 T2 plain Hp).
  - intros P P' l q.
    rewrite getLiteralOfTypeMatcher_view, getLocaleStringMatcher_view.
    unfold matchesTyped, matchesLocale, isLiteralOfDatatype.
    intros [[= H1] [= H2]].
    apply andb_prop in H1 as [_ H1]. apply andb_prop in H2 as [_ H2].
    destruct (object q) as [v | v | v tag d | v |]; try discriminate.
    apply andb_prop in H2 as [H2 _].
    apply String.eqb_eq in H1, H2. congruence.
Qed.

(** ** The scanner under an arbitrary matcher callback *)

Lemma findAll_loop_general (m : Matcher) (T : Thing) :
  forall matched,
    findAll_loop T m matched =
    if existsb (throwsOn m) T then TypeError
    else Ok (matched ++ filter (accepts m) T).
Proof.
  induction T as [| q T IH]; intros matched; simpl.
  - now rewrite app_nil_r.
  - unfold throwsOn at 1, accepts at 1.
    destruct (m q) as [b |]; simpl; [| reflexivity].
    rewrite IH. destruct (existsb (throwsOn m) T); [reflexivity |].
    destruct b; [now rewrite <- app_assoc | reflexivity].
Qed.

Lemma findAll_general (m : Matcher) (T : Thing) :
  findAll T m =
  if existsb (throwsOn m) T then TypeError else Ok (filter (accepts m) T).
Proof. unfold findAll. now rewrite findAll_loop_general. Qed.

Lemma throwsOn_true (m : Matcher) (q : Quad) :
  throwsOn m q = true <-> m q = TypeError.
Proof.
  unfold throwsOn. destruct (m q); split; intros H; auto; discriminate.
Qed.

Lemma scan_step (m : Matcher) (q : Quad) (b : bool) :
  m q = Ok b -> throwsOn m q = false /\ accepts m q = b.
Proof. unfold throwsOn, accepts. now intros ->. Qed.

Lemma existsb_throwsOn_false (m : Matcher) (T : Thing) :
  existsb (throwsOn m) T = false <->
  forall q, In q T -> m q <> TypeError.
Proof.
  split.
  - intros H q Hin Hq.
    assert (Hex : existsb (throwsOn m) T = true)
      by (apply existsb_exists; exists q; split; auto;
          now apply throwsOn_true).
    congruence.
  - intros H. destruct (existsb (throwsOn m) T) eqn:E; [| reflexivity].
    apply existsb_exists in E as (q & Hin & Hq).
    apply throwsOn_true in Hq. now destruct (H q Hin).
Qed.

(** X1.  [findOne] stops at the first hit: when the matcher refuses every
    quad before [q] and accepts [q], [findOne] returns [q] whatever the
    matcher would do on the quads after it, while [findAll] calls the
    matcher on those too and throws when it throws on one of them. *)
Theorem findOne_stops_at_first_hit (m : Matcher) (T1 T2 : Thing) (q : Quad) :
  (forall q', In q' T1 -> m q' = Ok false) ->
  m q = Ok true ->
  findOne (T1 ++ q :: T2) m = Ok (Some q) /\
  (forall q', In q' T2 -> m q' = TypeError ->
              findAll (T1 ++ q :: T2) m = TypeError).
Proof.
  intros Hno Hq. split.
  - induction T1 as [| a T1 IH]; simpl.
    + now rewrite Hq.
    + rewrite (Hno a (or_introl eq_refl)). simpl. apply IH.
      intros q' Hin. apply Hno. now right.
  - intros q' Hin Hthrow. rewrite findAll_general.
    replace (existsb (throwsOn m) (T1 ++ q :: T2)) with true; [reflexivity |].
    symmetry. apply existsb_exists. exists q'. split.
    + apply in_or_app. right. now right.
    + now apply throwsOn_true.
Qed.

(** X2.  [findAll] throws exactly when the matcher throws on some quad of
    the Thing; otherwise it returns the quads the matcher accepts, in the
    order of the Thing. *)
Theorem findAll_returns_accepted_quads (m : Matcher) (T : Thing) :
  (findAll T m = TypeError <-> exists q, In q T /\ m q = TypeError) /\
  (forall qs,
     findAll T m = Ok qs <->
     (forall q, In q T -> m q <> TypeError) /\ qs = filter (accepts m) T).
Proof.
  rewrite findAll_general. split.
  - destruct (existsb (throwsOn m) T) eqn:E.
    + split; [intros _ | reflexivity].
      apply existsb_exists in E as (q & Hin & Hq).
      exists q. split; [exact Hin | now apply throwsOn_true].
    + split; [discriminate |].
      intros (q & Hin & Hq).
      apply existsb_throwsOn_false with (q := q) in E; tauto.
  - intros qs. destruct (existsb (throwsOn m) T) eqn:E.
    + split; [discriminate |]. intros [Hnever _].
      apply existsb_throwsOn_false in Hnever. congruence.
    + split.
      * intros [= <-]. split; [now apply existsb_throwsOn_false | reflexivity].
      * now intros [_ ->].
Qed.

(** X3.  Whenever [findAll] returns, [findOne] returns the head of what
    [findAll] returned (null for the empty array); and [findOne] is null
    exactly when [findAll] is empty, for every matcher callback. *)
Theorem findOne_is_head_of_findAll (m : Matcher) (T : Thing) :
  (forall qs, findAll T m = Ok qs -> findOne T m = Ok (hd_error qs)) /\
  (findOne T m = Ok None <-> findAll T m = Ok []).
Proof.
  rewrite findAll_general.
  induction T as [| q T [IHhead IHnull]]; simpl.
  - split; [now intros qs [= <-] | tauto].
  - destruct (m q) as [[|] |] eqn:Eq; simpl.
    + rewrite (proj1 (scan_step m q true Eq)), (proj2 (scan_step m q true Eq)).
      simpl. destruct (existsb (throwsOn m) T);
        (split; [| split; discriminate]); intros qs; [discriminate |].
      now intros [= <-].
    + rewrite (proj1 (scan_step m q false Eq)),
        (proj2 (scan_step m q false Eq)).
      simpl. split; [exact IHhead | exact IHnull].
    + apply throwsOn_true in Eq. rewrite Eq. simpl.
      split; [discriminate | split; discriminate].
Qed.

(** X4.  Scanning a concatenation: [findAll] returns the concatenation of
    what it returns on the two parts, and [findOne] answers from the first
    part when it finds a quad there and from the second otherwise; a throw
    in a part that is reached is a throw of the whole. *)
Theorem scanner_over_concatenation (m : Matcher) :
  appendsOver (fun T => findAll T m) /\
  firstOfEither (fun T => findOne T m).
Proof.
  split.
  - intros T1 T2. rewrite !findAll_general, existsb_app, filter_app.
    destruct (existsb (throwsOn m) T1); simpl; [reflexivity |].
    destruct (existsb (throwsOn m) T2); reflexivity.
  - intros T1 T2. induction T1 as [| q T1 IH]; simpl.
    + now destruct (findOne T2 m) as [[q |] |].
    + destruct (m q) as [[|] |]; simpl; auto.
Qed.

(** ** How the accessors compose *)

Lemma find_app (f : Quad -> bool) (T1 T2 : Thing) :
  find f (T1 ++ T2) =
  match find f T1 with
  | Some q => Some q
  | None => find f T2
  end.
Proof.
  induction T1 as [| q T1 IH]; simpl; [reflexivity |].
  destruct (f q); [reflexivity | exact IH].
Qed.

Lemma literals_of_type (p d : string) (T : Thing) :
  map object (filter (matchesTyped p d) T) =
  filter (isLiteralOfDatatype d) (map object (filter (matchesLiteral p) T)).
Proof.
  induction T as [| q T IH]; simpl; [reflexivity |].
  unfold matchesTyped at 1, matchesLiteral at 1.
  destruct (hasPredicate p q); simpl; [| exact IH].
  destruct (object q) as [v | v | v l d' | v |] eqn:Eo; simpl;
    try exact IH.
  destruct (String.eqb d' d) eqn:Ed; simpl; rewrite ?Eo;
    unfold isLiteralOfDatatype at 1; rewrite Ed; now rewrite IH.
Qed.

Lemma literals_in_locale (p l : string) (T : Thing) :
  map object (filter (matchesLocale p l) T) =
  filter (isLiteralInLocale l) (map object (filter (matchesLiteral p) T)).
Proof.
  induction T as [| q T IH]; simpl; [reflexivity |].
  unfold matchesLocale at 1, matchesLiteral at 1.
  destruct (hasPredicate p q); simpl; [| exact IH].
  destruct (object q) as [v | v | v tag d | v |] eqn:Eo; simpl;
    try exact IH.
  destruct (String.eqb d (langString xmlSchemaTypes) &&
            String.eqb (toLowerCase tag) (toLowerCase l)) eqn:El;
    simpl; rewrite ?Eo; unfold isLiteralInLocale at 1; rewrite El;
    now rewrite IH.
Qed.

Lemma typed_readsLiteralsOfType {V : Type} (des : string -> option V)
    (d : string) :
  readsLiteralsOfType (typedAll des d) des d.
Proof.
  intros T P. unfold typedAll.
  rewrite getLiteralAllOfType_view, getLiteralAll_view. simpl.
  rewrite !asNonNull_filterNotNull.
  now rewrite <- literals_of_type, !map_map.
Qed.

(** X5.  The IRI accessors return the values of the NamedNodes that the
    NamedNode accessors return. *)
Theorem getIri_is_value_of_getNamedNode (T : Thing) (P : PredicateRef) :
  getIriOne T P = (node <- getNamedNodeOne T P ;; Ok (option_map value node)) /\
  getIriAll T P = (nodes <- getNamedNodeAll T P ;; Ok (map value nodes)).
Proof.
  rewrite getIriOne_view, getIriAll_view, getNamedNodeOne_view,
    getNamedNodeAll_view. simpl. split.
  - now destruct (find _ T).
  - now rewrite map_map.
Qed.

(** X6.  The escape hatches return terms of the kind their type promises:
    [getNamedNodeOne] and [getNamedNodeAll] return NamedNodes only,
    [getLiteralOne] and [getLiteralAll] Literals only. *)
Theorem escape_hatches_return_their_kind (T : Thing) (P : PredicateRef) :
  (exists nodes,
     getNamedNodeAll T P = Ok nodes /\
     Forall (fun t => exists v, t = NamedNode v) nodes) /\
  (exists node,
     getNamedNodeOne T P = Ok node /\
     (node = None \/ exists v, node = Some (NamedNode v))) /\
  (exists literals,
     getLiteralAll T P = Ok literals /\
     Forall (fun t => exists v l d, t = Literal v l d) literals) /\
  (exists literal,
     getLiteralOne T P = Ok literal /\
     (literal = None \/ exists v l d, literal = Some (Literal v l d))).
Proof.
  rewrite getNamedNodeAll_view, getNamedNodeOne_view, getLiteralAll_view,
    getLiteralOne_view.
  repeat apply conj; eexists; (split; [reflexivity |]).
  - apply Forall_forall. intros t Hin.
    apply in_map_iff in Hin as (q & <- & Hq).
    apply filter_In in Hq as [_ Hq]. unfold matchesIri in Hq.
    apply andb_prop in Hq as [_ Hq]. destruct (object q); try discriminate.
    eauto.
  - destruct (find _ T) as [q |] eqn:Ef; [right | now left].
    apply find_some in Ef as [_ Hq]. unfold matchesIri in Hq.
    apply andb_prop in Hq as [_ Hq]. simpl.
    destruct (object q); try discriminate. eauto.
  - apply Forall_forall. intros t Hin.
    apply in_map_iff in Hin as (q & <- & Hq).
    apply filter_In in Hq as [_ Hq]. unfold matchesLiteral in Hq.
    apply andb_prop in Hq as [_ Hq]. destruct (object q); try discriminate.
    eauto.
  - destruct (find _ T) as [q |] eqn:Ef; [right | now left].
    apply find_some in Ef as [_ Hq]. unfold matchesLiteral in Hq.
    apply andb_prop in Hq as [_ Hq]. simpl.
    destruct (object q); try discriminate. eauto.
Qed.

(** X7.  Every literal accessor can be read off [getLiteralAll]: the
    deserialising accessors and the plain string accessor work on the
    literals of their datatype, the locale accessor on the literals tagged
    for the locale; nothing else of the Thing reaches them. *)
Theorem literal_accessors_read_getLiteralAll :
  readsLiteralsOfType getBooleanAll deserializeBoolean
    xmlSchemaTypes.(boolean) /\
  readsLiteralsOfType getDatetimeAll deserializeDatetime
    xmlSchemaTypes.(dateTime) /\
  readsLiteralsOfType getDecimalAll deserializeDecimal
    xmlSchemaTypes.(decimal) /\
  readsLiteralsOfType getIntegerAll deserializeInteger
    xmlSchemaTypes.(integer) /\
  (forall T P,
     getStringUnlocalizedAll T P =
     (literals <- getLiteralAll T P ;;
      Ok (map value
            (filter (isLiteralOfDatatype xmlSchemaTypes.(string_))
               literals)))) /\
  (forall T P l,
     getStringInLocaleAll T P l =
     (literals <- getLiteralAll T P ;;
      Ok (map value (filter (isLiteralInLocale l) literals)))).
Proof.
  repeat apply conj; try apply typed_readsLiteralsOfType.
  - intros T P. rewrite getStringUnlocalizedAll_view, getLiteralAll_view.
    simpl. now rewrite <- literals_of_type, map_map.
  - intros T P l. rewrite getStringInLocaleAll_view, getLiteralAll_view.
    simpl. now rewrite <- literals_in_locale, map_map.
Qed.

(** ** What the accessors do not depend on *)

Lemma via_bare_all {V : Type} (proj : Quad -> V) (f : Quad -> bool)
    (T T' : Thing) :
  (forall q, proj (bare q) = proj q) ->
  selectsAlike f T T' ->
  map proj (filter f T) = map proj (filter f T').
Proof.
  intros Hproj [Hall _].
  transitivity (map proj (map bare (filter f T))).
  - rewrite map_map. apply map_ext. intros q. symmetry. apply Hproj.
  - rewrite Hall, map_map. apply map_ext. exact Hproj.
Qed.

Lemma via_bare_one {V : Type} (proj : Quad -> V) (f : Quad -> bool)
    (T T' : Thing) :
  (forall q, proj (bare q) = proj q) ->
  selectsAlike f T T' ->
  option_map proj (find f T) = option_map proj (find f T').
Proof.
  intros Hproj [_ Hone].
  destruct (find f T) as [q |], (find f T') as [q' |];
    cbn [option_map] in *; try discriminate; [| reflexivity].
  assert (Hbare : bare q = bare q') by congruence.
  now rewrite <- (Hproj q), <- (Hproj q'), Hbare.
Qed.

Lemma sameResults_of_selections (T T' : Thing) (P : PredicateRef)
    (l : string) :
  selectsAlike (matchesIri (iriOf P)) T T' ->
  selectsAlike (matchesLiteral (iriOf P)) T T' ->
  (forall d, selectsAlike (matchesTyped (iriOf P) d) T T') ->
  selectsAlike (matchesLocale (iriOf P) l) T T' ->
  sameResults T T' P l.
Proof.
  intros Hiri Hlit Htyped Hloc.
  assert (Hone : forall d,
             getLiteralOneOfType T P d = getLiteralOneOfType T' P d).
  { intros d. rewrite !getLiteralOneOfType_view. f_equal.
    now apply via_bare_one. }
  assert (Hall : forall d,
             getLiteralAllOfType T P d = getLiteralAllOfType T' P d).
  { intros d. rewrite !getLiteralAllOfType_view. f_equal.
    now apply via_bare_all. }
  unfold sameResults, getBooleanOne, getBooleanAll, getDatetimeOne,
    getDatetimeAll, getDecimalOne, getDecimalAll, getIntegerOne,
    getIntegerAll, getStringUnlocalizedOne, getStringUnlocalizedAll.
  rewrite !Hone, !Hall, !getIriOne_view, !getIriAll_view,
    !getStringInLocaleOne_view, !getStringInLocaleAll_view,
    !getNamedNodeOne_view, !getNamedNodeAll_view,
    !getLiteralOne_view, !getLiteralAll_view.
  repeat apply conj; try reflexivity; f_equal;
    solve [ now apply via_bare_one | now apply via_bare_all ].
Qed.

Lemma same_statements_selectsAlike (f : Quad -> bool) :
  (forall q, f (bare q) = f q) ->
  forall T T',
    map predicateObject T = map predicateObject T' ->
    selectsAlike f T T'.
Proof.
  intros Hf T. unfold selectsAlike.
  induction T as [| q T IH]; intros [| q' T'] Hsame; simpl in *;
    try discriminate; [split; reflexivity |].
  injection Hsame as Hp Ho Hrest.
  assert (Hbare : bare q = bare q') by (unfold bare; now rewrite Hp, Ho).
  assert (Hfq : f q = f q') by now rewrite <- (Hf q), <- (Hf q'), Hbare.
  destruct (IH T' Hrest) as [IHall IHone].
  rewrite <- Hfq. destruct (f q); simpl; [| now split].
  now rewrite Hbare, IHall.
Qed.

Lemma hasPredicate_other (P : PredicateRef) (q : Quad) :
  predicate q <> NamedNode (iriOf P) -> hasPredicate (iriOf P) q = false.
Proof.
  unfold hasPredicate. intros Hne.
  destruct (predicate q) as [p' | | | |]; try reflexivity.
  destruct (String.eqb_spec p' (iriOf P)) as [-> |]; [now destruct Hne | auto].
Qed.

Lemma rejected_selectsAlike (f : Quad -> bool) (q : Quad) (T1 T2 : Thing) :
  f q = false -> selectsAlike f (T1 ++ q :: T2) (T1 ++ T2).
Proof.
  intros Hq. unfold selectsAlike.
  now rewrite (find_remove f T1 T2 q Hq), (filter_remove f T1 T2 q Hq).
Qed.

(** X8.  The accessors read the predicate and the object of a statement
    and nothing else: two Things with the same sequence of predicates and
    objects give the same result in every accessor, whatever their
    subjects and graphs. *)
Theorem only_predicate_and_object_are_read (T T' : Thing) :
  map predicateObject T = map predicateObject T' ->
  forall P l, sameResults T T' P l.
Proof.
  intros Hsame P l.
  apply sameResults_of_selections; try intros d;
    apply same_statements_selectsAlike; auto.
Qed.

(** X9.  A statement whose predicate is not the NamedNode of the requested
    IRI is invisible to every accessor: taking it out of the Thing changes
    no result. *)
Theorem other_predicates_are_invisible (P : PredicateRef) (q : Quad) :
  predicate q <> NamedNode (iriOf P) ->
  forall T1 T2 l, sameResults (T1 ++ q :: T2) (T1 ++ T2) P l.
Proof.
  intros Hne T1 T2 l. apply hasPredicate_other in Hne.
  apply sameResults_of_selections; try intros d;
    apply rejected_selectsAlike;
    unfold matchesIri, matchesLiteral, matchesTyped, matchesLocale;
    now rewrite Hne.
Qed.

(** ** Concatenation, reversal and well-formed Things *)

Lemma plain_appendsOver {V : Type} (f : Quad -> bool) (proj : Quad -> V) :
  appendsOver (fun T => Ok (map proj (filter f T))).
Proof.
  intros T1 T2. simpl. now rewrite filter_app, map_app.
Qed.

Lemma typed_appendsOver {V : Type} (des : string -> option V) (d : string)
    (P : PredicateRef) :
  appendsOver (fun T => typedAll des d T P).
Proof.
  intros T1 T2. rewrite !typedAll_view. simpl.
  now rewrite filter_app, flat_map_app.
Qed.

Lemma plain_firstOfEither {V : Type} (f : Quad -> bool) (proj : Quad -> V) :
  firstOfEither (fun T => Ok (option_map (fun q => proj q) (find f T))).
Proof.
  intros T1 T2. simpl. rewrite find_app.
  now destruct (find f T1).
Qed.


Lemma keptValue_rev {V : Type} (des : string -> option V) (qs : list Quad) :
  flat_map (keptValue des) (rev qs) = rev (flat_map (keptValue des) qs).
Proof.
  induction qs as [| q qs IH]; simpl; [reflexivity |].
  rewrite flat_map_app, IH, rev_app_distr. simpl. rewrite app_nil_r.
  f_equal. unfold keptValue. now destruct (des _).
Qed.

Lemma plain_reversesWith {V : Type} (f : Quad -> bool) (proj : Quad -> V) :
  reversesWith (fun T => Ok (map proj (filter f T))).
Proof.
  intros T. simpl. now rewrite filter_rev, map_rev.
Qed.

Lemma typed_reversesWith {V : Type} (des : string -> option V) (d : string)
    (P : PredicateRef) :
  reversesWith (fun T => typedAll des d T P).
Proof.
  intros T. rewrite !typedAll_view. simpl.
  now rewrite filter_rev, keptValue_rev.
Qed.


(** X10.  Every multi-value accessor maps the concatenation of two Things
    to the concatenation of its results on each. *)
Theorem getAll_of_concatenation (P : PredicateRef) (l : string) :
  appendsOver (fun T => getIriAll T P) /\
  appendsOver (fun T => getBooleanAll T P) /\
  appendsOver (fun T => getDatetimeAll T P) /\
  appendsOver (fun T => getDecimalAll T P) /\
  appendsOver (fun T => getIntegerAll T P) /\
  appendsOver (fun T => getStringInLocaleAll T P l) /\
  appendsOver (fun T => getStringUnlocalizedAll T P) /\
  appendsOver (fun T => getNamedNodeAll T P) /\
  appendsOver (fun T => getLiteralAll T P).
Proof.
  repeat apply conj; try apply typed_appendsOver; intros T1 T2;
    rewrite ?getIriAll_view, ?getStringInLocaleAll_view,
      ?getStringUnlocalizedAll_view, ?getNamedNodeAll_view,
      ?getLiteralAll_view;
    apply plain_appendsOver.
Qed.

(** X11.  A single-value accessor without a deserialisation step answers
    from the first Thing of a concatenation when it finds a value there,
    and from the second Thing otherwise. *)
Theorem getOne_of_concatenation (P : PredicateRef) (l : string) :
  firstOfEither (fun T => getIriOne T P) /\
  firstOfEither (fun T => getStringInLocaleOne T P l) /\
  firstOfEither (fun T => getStringUnlocalizedOne T P) /\
  firstOfEither (fun T => getNamedNodeOne T P) /\
  firstOfEither (fun T => getLiteralOne T P).
Proof.
  repeat apply conj; intros T1 T2;
    rewrite ?getIriOne_view, ?getStringInLocaleOne_view,
      ?getStringUnlocalizedOne_view, ?getNamedNodeOne_view,
      ?getLiteralOne_view;
    apply plain_firstOfEither.
Qed.



(** X14.  The matchers are nested: what the locale-string matcher accepts
    the matcher for the language-tagged string datatype accepts, what a
    literal-of-datatype matcher accepts the literal matcher accepts, and no
    statement is accepted by both a literal matcher and a NamedNode
    matcher. *)
Theorem matchers_are_nested (q : Quad) :
  (forall P l,
     getLocaleStringMatcher P l q = Ok true ->
     getLiteralOfTypeMatcher P xmlSchemaTypes.(langString) q = Ok true) /\
  (forall P d,
     getLiteralOfTypeMatcher P d q = Ok true ->
     getLiteralMatcher P q = Ok true) /\
  (forall P P',
     ~ (getLiteralMatcher P q = Ok true /\
        getNamedNodeMatcher P' q = Ok true)).
Proof.
  repeat apply conj.
  - intros P l. rewrite getLocaleStringMatcher_view,
      getLiteralOfTypeMatcher_view.
    unfold matchesLocale, matchesTyped, isLiteralOfDatatype.
    intros [= H]. f_equal.
    apply andb_prop in H as [-> H]. simpl.
    destruct (object q); try discriminate.
    now apply andb_prop in H as [-> _].
  - intros P d. rewrite getLiteralOfTypeMatcher_view, getLiteralMatcher_view.
    unfold matchesTyped, matchesLiteral, isLiteralOfDatatype.
    intros [= H]. f_equal.
    apply andb_prop in H as [-> H]. simpl.
    now destruct (object q).
  - intros P P'. rewrite getLiteralMatcher_view, getNamedNodeMatcher_view.
    unfold matchesLiteral, matchesIri.
    intros [[= H1] [= H2]].
    apply andb_prop in H1 as [_ H1]. apply andb_prop in H2 as [_ H2].
    destruct (object q); discriminate.
Qed.

(** X15.  A literal whose language tag does not lower-case to the
    lower-cased locale is invisible to the locale accessors, whatever the
    tag has in common with the locale otherwise. *)
Theorem other_locales_are_invisible (P : PredicateRef) (l : string)
    (s p g : Term) (lexical tag d : string) :
  toLowerCase tag <> toLowerCase l ->
  invisibleTo (fun T => getStringInLocaleOne T P l)
    (mkQuad s p (Literal lexical tag d) g) /\
  invisibleTo (fun T => getStringInLocaleAll T P l)
    (mkQuad s p (Literal lexical tag d) g).
Proof.
  intros Hne.
  assert (Hq : matchesLocale (iriOf P) l (mkQuad s p (Literal lexical tag d) g)
               = false).
  { unfold matchesLocale. simpl. apply String.eqb_neq in Hne.
    rewrite Hne. now rewrite !andb_false_r. }
  split; intros T1 T2.
  - rewrite !getStringInLocaleOne_view.
    now rewrite (find_remove _ T1 T2 _ Hq).
  - rewrite !getStringInLocaleAll_view.
    now rewrite (filter_remove _ T1 T2 _ Hq).
Qed.

(** X16.  The type assertion after the null filter is sound: no entry of
    the filtered array is null, and read at the value type the array is,
    entry for entry, the filtered array. *)
Theorem null_filter_leaves_values {V : Type} (xs : list (option V)) :
  Forall (fun x => x <> None) (filterNotNull xs) /\
  map Some (asNonNull (filterNotNull xs) (filterNotNull_noNull xs)) =
  filterNotNull xs.
Proof.
  split.
  - apply Forall_forall. intros x Hin. unfold filterNotNull in Hin.
    apply filter_In in Hin as [_ Hx]. now destruct x.
  - apply asNonNull_reads.
Qed.

(** X17.  Results follow statement order: reversing the Thing reverses
    what every multi-value accessor returns. *)
Theorem getAll_of_reversal (P : PredicateRef) (l : string) :
  reversesWith (fun T => getIriAll T P) /\
  reversesWith (fun T => getBooleanAll T P) /\
  reversesWith (fun T => getDatetimeAll T P) /\
  reversesWith (fun T => getDecimalAll T P) /\
  reversesWith (fun T => getIntegerAll T P) /\
  reversesWith (fun T => getStringInLocaleAll T P l) /\
  reversesWith (fun T => getStringUnlocalizedAll T P) /\
  reversesWith (fun T => getNamedNodeAll T P) /\
  reversesWith (fun T => getLiteralAll T P).
Proof.
  repeat apply conj; try apply typed_reversesWith; intros T;
    rewrite ?getIriAll_view, ?getStringInLocaleAll_view,
      ?getStringUnlocalizedAll_view, ?getNamedNodeAll_view,
      ?getLiteralAll_view;
    apply plain_reversesWith.
Qed.

End Accessors.

(** ** Closed instances *)

(** The property reads do throw where the guards are missing: reading the
    datatype of an IRI-reference, or lower-casing its language. *)
Example unguarded_reads_throw :
  datatype_value (NamedNode flagIri) = TypeError /\
  call_toLowerCase asciiLower (language (NamedNode flagIri)) = TypeError.
Proof. split; reflexivity. Qed.

(** Multiplicity and absence: three IRI-valued statements come back in
    order, duplicates kept, and [getIriOne] is the first; an unused
    predicate gives null and the empty array. *)
Example getIri_on_friends :
  getIriAll friends (IriString flagIri) =
    Ok [ "https://example.org/profile#bob";
         "https://example.org/profile#carol";
         "https://example.org/profile#bob" ] /\
  getIriOne friends (Iri flagIri) =
    Ok (Some "https://example.org/profile#bob") /\
  getIriOne friends (IriString "https://example.org/vocab#unused") = Ok None /\
  getIriAll friends (IriString "https://example.org/vocab#unused") = Ok [].
Proof. repeat split; reflexivity. Qed.

(** A literal reaches the deserialiser only under its own datatype: the
    decimal accessor hands "3.14" to its deserialiser, the integer accessor
    does not see the literal. *)
Example getDecimal_on_pi (deserialize : string -> option Z) :
  getDecimalOne w3cSchemaTypes Z deserialize [piAsDecimal] (IriString flagIri)
    = Ok (deserialize "3.14") /\
  getIntegerOne w3cSchemaTypes Z deserialize [piAsDecimal] (IriString flagIri)
    = Ok None.
Proof. split; reflexivity. Qed.

(** The equivalence of C1 fails for the boolean pair: on
    [malformedThenValid] [getBooleanOne] is null although [getBooleanAll]
    is not empty. *)
Lemma getBooleanOne_null_getBooleanAll_nonempty :
  ~ (getBooleanOne w3cSchemaTypes deserializeBooleanSpec
       malformedThenValid (IriString flagIri) = Ok None <->
     getBooleanAll w3cSchemaTypes deserializeBooleanSpec
       malformedThenValid (IriString flagIri) = Ok []).
Proof.
  intros [Hnull _]. specialize (Hnull eq_refl).
  vm_compute in Hnull. discriminate Hnull.
Qed.

(** The boolean pair on [malformedThenValid]: the first match is malformed,
    so [getBooleanOne] is null. *)
Lemma getOne_null_versus_getAll_empty_witness :
  firstMatchMalformed deserializeBooleanSpec flagIri w3cSchemaTypes.(boolean)
    malformedThenValid /\
  getBooleanOne w3cSchemaTypes deserializeBooleanSpec
    malformedThenValid (IriString flagIri) = Ok None.
Proof.
  assert (Hmal : firstMatchMalformed deserializeBooleanSpec flagIri
                   w3cSchemaTypes.(boolean) malformedThenValid).
  { exists [], maybeFlag, [oneFlag].
    repeat split; try reflexivity. intros q' []. }
  split; [exact Hmal |].
  destruct (getOne_null_versus_getAll_empty w3cSchemaTypes
              string Z deserializeBooleanSpec
              readInstant readNumeral readNumeral asciiLower)
    as (_ & _ & _ & Hbool & _).
  destruct (Hbool malformedThenValid (IriString flagIri)) as [_ Hiff].
  apply Hiff. right. exact Hmal.
Defined.

(** No fall-through on [malformedThenValid]: "maybe" comes first and
    decides [getBooleanOne], while [getBooleanAll] keeps the later "1". *)
Lemma getOne_inspects_first_match_only_witness :
  getBooleanOne w3cSchemaTypes deserializeBooleanSpec
    malformedThenValid (IriString flagIri) = Ok None /\
  exists vs,
    getBooleanAll w3cSchemaTypes deserializeBooleanSpec
      malformedThenValid (IriString flagIri) = Ok vs /\ In true vs.
Proof.
  destruct (getOne_inspects_first_match_only w3cSchemaTypes
              string Z deserializeBooleanSpec
              readInstant readNumeral readNumeral)
    as ((_ & Hbool) & _).
  apply (Hbool [] maybeFlag [oneFlag] oneFlag true (IriString flagIri)).
  - intros q0 [].
  - reflexivity.
  - reflexivity.
  - now left.
  - reflexivity.
  - reflexivity.
Defined.

(** The literals "true" and "maybe", in both orders. *)
Lemma getAll_drops_malformed_entries_witness :
  deserializeBooleanSpec "true" = Some true /\
  deserializeBooleanSpec "maybe" = None /\
  (getBooleanAll w3cSchemaTypes deserializeBooleanSpec
     [trueFlag; maybeFlag] (IriString flagIri) = Ok [true] /\
   getBooleanAll w3cSchemaTypes deserializeBooleanSpec
     [maybeFlag; trueFlag] (IriString flagIri) = Ok [true]) /\
  exists literalStrings,
    getLiteralAllOfType [trueFlag; maybeFlag] (IriString flagIri)
      w3cSchemaTypes.(boolean) = Ok literalStrings /\
    map deserializeBooleanSpec literalStrings = [Some true; None] /\
    filterNotNull (map deserializeBooleanSpec literalStrings) = [Some true].
Proof.
  split; [reflexivity |]. split; [reflexivity |].
  destruct (getAll_drops_malformed_entries w3cSchemaTypes
              string Z deserializeBooleanSpec
              readInstant readNumeral readNumeral)
    as (Hbool & _ & _ & _ & Hexample).
  split.
  - exact (Hexample (IriString flagIri) alice DefaultGraph alice DefaultGraph
             noLanguage noLanguage eq_refl eq_refl).
  - destruct (Hbool [trueFlag; maybeFlag] (IriString flagIri))
      as (literalStrings & Hstrings & Hfiltered & _).
    exists literalStrings. split; [exact Hstrings |]. split.
    + vm_compute in Hstrings. injection Hstrings as <-. reflexivity.
    + exact Hfiltered.
Defined.

(** A valid first match is both the value of [getBooleanOne] and the head
    of [getBooleanAll]. *)
Lemma getOne_is_head_of_getAll_witness :
  getBooleanOne w3cSchemaTypes deserializeBooleanSpec
    [oneFlag; maybeFlag] (IriString flagIri) = Ok (Some true) /\
  exists rest,
    getBooleanAll w3cSchemaTypes deserializeBooleanSpec
      [oneFlag; maybeFlag] (IriString flagIri) = Ok (true :: rest).
Proof.
  split; [reflexivity |].
  destruct (getOne_is_head_of_getAll w3cSchemaTypes
              string Z deserializeBooleanSpec
              readInstant readNumeral readNumeral asciiLower)
    as (Hbool & _).
  apply (Hbool [oneFlag; maybeFlag] (IriString flagIri) true).
  reflexivity.
Defined.

(** The tag "EN" is found with the locale "en" and with "EN". *)
Lemma locale_matching_case_insensitive_witness :
  asciiLower "en" = asciiLower "EN" /\
  getStringInLocaleOne w3cSchemaTypes asciiLower greeting (IriString flagIri)
    "en" = Ok (Some "hello") /\
  getStringInLocaleOne w3cSchemaTypes asciiLower greeting (IriString flagIri)
    "EN" = Ok (Some "hello").
Proof.
  assert (Hcase : asciiLower "en" = asciiLower "EN") by reflexivity.
  split; [exact Hcase |].
  destruct (locale_matching_case_insensitive w3cSchemaTypes asciiLower
              "en" "EN" Hcase) as [Hsame _].
  destruct (Hsame greeting (IriString flagIri)) as [Hone _].
  split; [rewrite Hone |]; reflexivity.
Defined.

(** "3" as a decimal is not an integer for [getIntegerOne], and "3" as an
    integer is not a decimal for [getDecimalAll]. *)
Lemma exact_datatype_discrimination_witness :
  w3cSchemaTypes.(integer) <> w3cSchemaTypes.(decimal) /\
  getIntegerOne w3cSchemaTypes Z readNumeral [threeAsDecimal]
    (IriString flagIri) = Ok None /\
  getDecimalAll w3cSchemaTypes Z readNumeral [threeAsInteger]
    (IriString flagIri) = Ok [].
Proof.
  assert (Hne : w3cSchemaTypes.(integer) <> w3cSchemaTypes.(decimal))
    by discriminate.
  split; [exact Hne |].
  destruct (exact_datatype_discrimination w3cSchemaTypes
              Z readNumeral readNumeral Hne) as [_ Hinv].
  destruct (Hinv (IriString flagIri) alice (NamedNode flagIri) DefaultGraph
              "3" noLanguage) as [(_ & Hone & _) (_ & _ & Hall)].
  split.
  - exact (Hone [] []).
  - exact (Hall [] []).
Defined.

(** A plain "3" and a tagged "hello" side by side: each family sees its
    own literal only. *)
Lemma string_families_disjoint_witness :
  w3cSchemaTypes.(string_) <> w3cSchemaTypes.(langString) /\
  getStringUnlocalizedAll w3cSchemaTypes (threeAsString :: greeting)
    (IriString flagIri) = Ok ["3"] /\
  getStringInLocaleAll w3cSchemaTypes asciiLower (threeAsString :: greeting)
    (IriString flagIri) "en" = Ok ["hello"].
Proof.
  assert (Hne : w3cSchemaTypes.(string_) <> w3cSchemaTypes.(langString))
    by discriminate.
  split; [exact Hne |].
  destruct (string_families_disjoint w3cSchemaTypes asciiLower Hne)
    as [Hinv _].
  destruct (Hinv (IriString flagIri) "en" alice (NamedNode flagIri)
              DefaultGraph "hello" "EN") as [[_ Hall] _].
  destruct (Hinv (IriString flagIri) "en" alice (NamedNode flagIri)
              DefaultGraph "3" noLanguage) as [_ [_ Hplain]].
  split.
  - etransitivity; [exact (Hall [threeAsString] []) | reflexivity].
  - etransitivity; [exact (Hplain [] greeting) | reflexivity].
Defined.

(** ** Closed instances of the further laws *)

(** On [flagThenFriend] the unguarded matcher accepts the first quad, so
    [findOne] never calls it on the IRI-valued second one; [findAll] does,
    and throws. *)
Lemma findOne_stops_at_first_hit_witness :
  findOne flagThenFriend (unguardedDatatypeMatcher w3cSchemaTypes.(boolean))
    = Ok (Some oneFlag) /\
  findAll flagThenFriend (unguardedDatatypeMatcher w3cSchemaTypes.(boolean))
    = TypeError.
Proof.
  destruct (findOne_stops_at_first_hit
              (unguardedDatatypeMatcher w3cSchemaTypes.(boolean))
              [] [statement (NamedNode "https://example.org/profile#bob")]
              oneFlag) as [Hone Hall].
  - intros q' [].
  - reflexivity.
  - split; [exact Hone |].
    apply (Hall (statement (NamedNode "https://example.org/profile#bob"))).
    + now left.
    + reflexivity.
Defined.

(** [friendsElsewhere] has other subjects and another graph than
    [friends], and gives the same IRIs. *)
Lemma only_predicate_and_object_are_read_witness :
  map predicateObject friends = map predicateObject friendsElsewhere /\
  getIriAll friendsElsewhere (IriString flagIri) =
    Ok [ "https://example.org/profile#bob";
         "https://example.org/profile#carol";
         "https://example.org/profile#bob" ].
Proof.
  assert (Hsame : map predicateObject friends
                  = map predicateObject friendsElsewhere) by reflexivity.
  split; [exact Hsame |].
  destruct (only_predicate_and_object_are_read w3cSchemaTypes string Z
              deserializeBooleanSpec readInstant readNumeral readNumeral
              asciiLower friends friendsElsewhere Hsame
              (IriString flagIri) "en") as [[_ Hiri] _].
  rewrite <- Hiri. reflexivity.
Defined.

(** A boolean literal under another predicate, put in front, does not
    become the answer of [getBooleanOne]. *)
Lemma other_predicates_are_invisible_witness :
  predicate otherStatement <> NamedNode (iriOf (IriString flagIri)) /\
  getBooleanOne w3cSchemaTypes deserializeBooleanSpec
    (otherStatement :: malformedThenValid) (IriString flagIri) = Ok None.
Proof.
  assert (Hne : predicate otherStatement
                <> NamedNode (iriOf (IriString flagIri))) by discriminate.
  split; [exact Hne |].
  destruct (other_predicates_are_invisible w3cSchemaTypes string Z
              deserializeBooleanSpec readInstant readNumeral readNumeral
              asciiLower (IriString flagIri) otherStatement Hne
              [] malformedThenValid "en") as [_ [[Hone _] _]].
  etransitivity; [exact Hone | reflexivity].
Defined.


(** A literal tagged "en-US" is not found under the locale "en". *)
Lemma other_locales_are_invisible_witness :
  asciiLower "en-US" <> asciiLower "en" /\
  getStringInLocaleAll w3cSchemaTypes asciiLower
    [statement (Literal "colour" "en-US" w3cSchemaTypes.(langString))]
    (IriString flagIri) "en" = Ok [].
Proof.
  assert (Hne : asciiLower "en-US" <> asciiLower "en") by discriminate.
  split; [exact Hne |].
  destruct (other_locales_are_invisible w3cSchemaTypes asciiLower
              (IriString flagIri) "en" alice (NamedNode flagIri) DefaultGraph
              "colour" "en-US" w3cSchemaTypes.(langString) Hne) as [_ Hall].
  exact (Hall [] []).
Defined.
